(** * BlockID trust-scoring backend: metrics derivation and scoring

    A shallow embedding of [analyzer.py], [ai-engine/scoring.py],
    [ai-engine/rpc_client.py], the response models of [models.py] and the
    request handler of [main.py], and the properties of the scoring
    pipeline.

    Python values are modelled as follows.
    - [int] is [Z] (unbounded).
    - [float] is [f64]: a binary64 value is its exact rational value, or an
      infinity, or NaN.  Every arithmetic operation is the exact rational
      operation followed by IEEE-754 round-to-nearest-even into binary64
      ([RN]); the sign of zero is not represented (no function below can
      observe it).
    - [str] is [pystr], the list of its Unicode code points.
    - a raised exception is the [Raise] case of [result].
    - the Solana RPC, the address parser, the wall clock, the database
      insert and the C library's [pow] are parameters. *)

From Stdlib Require Import String Ascii.
From Stdlib Require Import ZArith NArith QArith Qround Qabs Qpower Qminmax Lqa Lia.
From Stdlib Require Import Bool List Morphisms Setoid.
Import ListNotations.

(* ================================================================== *)
(** * Exceptions *)

Inductive exn : Set :=
| ValueError | OverflowError | ZeroDivisionError | UnicodeEncodeError
| RpcError.

Inductive result (A : Type) : Type :=
| Ok (a : A)
| Raise (e : exn).
Arguments Ok {A} a.
Arguments Raise {A} e.

Definition bind {A B : Type} (r : result A) (k : A -> result B) : result B :=
  match r with
  | Ok a => k a
  | Raise e => Raise e
  end.

Notation "x <- r ;; k" := (bind r (fun x => k))
  (at level 61, r at next level, right associativity).

(* ================================================================== *)
(** * Binary64 arithmetic *)

Module Binary64.
Open Scope Q_scope.

(** [pow2 e] is 2^e for any integer [e]. *)
Definition pow2 (e : Z) : Q := Qpower 2 e.

(** [ilog2 q] is the floor of the base-2 logarithm of a positive rational. *)
Definition ilog2 (q : Q) : Z :=
  let k := (Z.log2 (Qnum q) - Z.log2 (Zpos (Qden q)))%Z in
  if Qle_bool (pow2 k) q then k else (k - 1)%Z.

(** Round half to even, from the rationals to the integers. *)
Definition rhe (x : Q) : Z :=
  let f := Qfloor x in
  match Qcompare (x - inject_Z f) (1 # 2) with
  | Lt => f
  | Gt => (f + 1)%Z
  | Eq => if Z.even f then f else (f + 1)%Z
  end.

(** Exponent of the unit in the last place of the binary64 numbers around
    [q]: 53 significant bits, subnormals from 2^-1074. *)
Definition ulp_exp (q : Q) : Z := Z.max (ilog2 (Qabs q) - 52) (-1074).

(** Round to nearest, ties to even, with unbounded exponent range above. *)
Definition rnd (q : Q) : Q :=
  if Qeq_bool q 0 then 0
  else let e := ulp_exp q in Qred (inject_Z (rhe (q * pow2 (- e))) * pow2 e).

Inductive f64 : Set :=
| Fin (q : Q)
| Inf (neg : bool)
| NaN.

Definition Qltb (x y : Q) : bool := negb (Qle_bool y x).

(** [overflows r]: the magnitude of [r] is 2^1024 or more. *)
Definition overflows (r : Q) : bool :=
  if Qeq_bool r 0 then false else (1024 <=? ilog2 (Qabs r))%Z.

(** Rounding into binary64: magnitudes that round to 2^1024 overflow. *)
Definition RN (q : Q) : f64 :=
  let r := rnd q in
  if overflows r then Inf (Qltb r 0) else Fin r.

(** A decimal literal of the source denotes the nearest binary64. *)
Definition lit (q : Q) : f64 := RN q.

Definition fneg (x : f64) : f64 :=
  match x with
  | Fin q => Fin (- q)
  | Inf s => Inf (negb s)
  | NaN => NaN
  end.

Definition fadd (x y : f64) : f64 :=
  match x, y with
  | NaN, _ | _, NaN => NaN
  | Inf s, Inf t => if Bool.eqb s t then Inf s else NaN
  | Inf s, Fin _ => Inf s
  | Fin _, Inf t => Inf t
  | Fin a, Fin b => RN (a + b)
  end.

Definition fsub (x y : f64) : f64 := fadd x (fneg y).

Definition fmul (x y : f64) : f64 :=
  match x, y with
  | NaN, _ | _, NaN => NaN
  | Inf s, Inf t => Inf (xorb s t)
  | Inf s, Fin b => if Qeq_bool b 0 then NaN else Inf (xorb s (Qltb b 0))
  | Fin a, Inf t => if Qeq_bool a 0 then NaN else Inf (xorb (Qltb a 0) t)
  | Fin a, Fin b => RN (a * b)
  end.

(** Comparisons: every comparison with NaN is false. *)
Definition flt (x y : f64) : bool :=
  match x, y with
  | NaN, _ | _, NaN => false
  | Fin a, Fin b => Qltb a b
  | Fin _, Inf t => negb t
  | Inf s, Fin _ => s
  | Inf s, Inf t => s && negb t
  end.

Definition fle (x y : f64) : bool :=
  match x, y with
  | NaN, _ | _, NaN => false
  | Fin a, Fin b => Qle_bool a b
  | Fin _, Inf t => negb t
  | Inf s, Fin _ => s
  | Inf s, Inf t => s || negb t
  end.

Definition fgt (x y : f64) : bool := flt y x.
Definition fge (x y : f64) : bool := fle y x.

End Binary64.
Export Binary64.

(* ================================================================== *)
(** * Python built-ins on numbers *)

Module Py.

(** [float(n)], the conversion an [int] operand undergoes in [n * x]:
    correctly rounded, [OverflowError] when the result is not finite. *)
Definition float_of_int (n : Z) : result f64 :=
  match RN (inject_Z n) with
  | Inf _ => Raise OverflowError
  | x => Ok x
  end.

(** [n * x] for an [int] [n] and a [float] [x]. *)
Definition int_mul_float (n : Z) (x : f64) : result f64 :=
  a <- float_of_int n ;; Ok (fmul a x).

(** [a / b] on two [int]s: the correctly rounded quotient. *)
Definition int_truediv (a b : Z) : result f64 :=
  if (b =? 0)%Z then Raise ZeroDivisionError
  else match RN (inject_Z a / inject_Z b) with
       | Inf _ => Raise OverflowError
       | x => Ok x
       end.

(** [round(x)]: the nearest [int], ties to even. *)
Definition round (x : f64) : result Z :=
  match x with
  | Fin q => Ok (rhe q)
  | Inf _ => Raise OverflowError
  | NaN => Raise ValueError
  end.

(** [round(x, 1)]: the exact value of [x] is rounded half-even to one
    decimal, and the decimal is converted back to the nearest binary64. *)
Definition round1 (x : f64) : f64 :=
  match x with
  | Fin q => RN (inject_Z (rhe (q * 10)) / 10)
  | _ => x
  end.

(** [int(x)]: truncation toward zero. *)
Definition int (x : f64) : result Z :=
  match x with
  | Fin q => Ok (Z.quot (Qnum q) (Zpos (Qden q)))
  | Inf _ => Raise OverflowError
  | NaN => Raise ValueError
  end.

(** [min(a, b)] and [max(a, b)] keep the first argument unless the second is
    strictly smaller (resp. larger). *)
Definition min (a b : f64) : f64 := if flt b a then b else a.
Definition max (a b : f64) : f64 := if fgt b a then b else a.

End Py.

(* ================================================================== *)
(** * Python strings and bytes *)

(** A [str] is the list of its code points; [bytes] is a list of integers
    in [0, 256). *)
Definition pystr : Set := list N.
Definition bytes : Set := list Z.

Definition str_of (s : string) : pystr :=
  List.map N_of_ascii (list_ascii_of_string s).

(** [str.isspace] of one character (the code points with the White_Space
    property or bidirectional type WS, B or S). *)
Definition is_space (c : N) : bool :=
  ((0x09 <=? c) && (c <=? 0x0D) || (0x1C <=? c) && (c <=? 0x20)
   || (c =? 0x85) || (c =? 0xA0) || (c =? 0x1680)
   || (0x2000 <=? c) && (c <=? 0x200A)
   || (c =? 0x2028) || (c =? 0x2029) || (c =? 0x202F) || (c =? 0x205F)
   || (c =? 0x3000))%N.

Fixpoint lstrip (s : pystr) : pystr :=
  match s with
  | c :: s' => if is_space c then lstrip s' else s
  | [] => []
  end.

Definition rstrip (s : pystr) : pystr := rev (lstrip (rev s)).

(** [s.strip()] *)
Definition strip (s : pystr) : pystr := rstrip (lstrip s).

(** UTF-8 of one code point; surrogates cannot be encoded. *)
Definition utf8_char (c : N) : result bytes :=
  let c := Z.of_N c in
  (if c <? 0x80 then Ok [c]
   else if c <? 0x800 then Ok [0xC0 + c / 64; 0x80 + c mod 64]
   else if (0xD800 <=? c) && (c <=? 0xDFFF) then Raise UnicodeEncodeError
   else if c <? 0x10000 then
     Ok [0xE0 + c / 4096; 0x80 + (c / 64) mod 64; 0x80 + c mod 64]
   else if c <? 0x110000 then
     Ok [0xF0 + c / 262144; 0x80 + (c / 4096) mod 64;
         0x80 + (c / 64) mod 64; 0x80 + c mod 64]
   else Raise UnicodeEncodeError)%Z.

(** [s.encode("utf-8")] *)
Fixpoint encode_utf8 (s : pystr) : result bytes :=
  match s with
  | [] => Ok []
  | c :: s' =>
      b <- utf8_char c ;; bs <- encode_utf8 s' ;; Ok (b ++ bs)
  end.

(** Lowercase hexadecimal digit of a value in [0, 16). *)
Definition hex_digit (d : Z) : N :=
  (if d <? 10 then Z.to_N (48 + d) else Z.to_N (87 + d))%Z.

(** [b.hex()]: two digits per byte. *)
Definition hex_of_bytes (b : bytes) : pystr :=
  flat_map (fun x => [hex_digit (x / 16); hex_digit (x mod 16)]%Z) b.

(** Value of one hexadecimal digit, as [int(_, 16)] reads it. *)
Definition hex_value (c : N) : option Z :=
  (if (48 <=? c) && (c <=? 57) then Some (Z.of_N c - 48)%Z
   else if (97 <=? c) && (c <=? 102) then Some (Z.of_N c - 87)%Z
   else if (65 <=? c) && (c <=? 70) then Some (Z.of_N c - 55)%Z
   else None)%N.

Fixpoint int16_acc (acc : Z) (s : pystr) : result Z :=
  match s with
  | [] => Ok acc
  | c :: s' =>
      match hex_value c with
      | Some d => int16_acc (16 * acc + d) s'
      | None => Raise ValueError
      end
  end.

(** [int(s, 16)] on a string of hexadecimal digits (the only strings the
    analyzer passes to it). *)
Definition int16 (s : pystr) : result Z :=
  match s with
  | [] => Raise ValueError
  | _ => int16_acc 0 s
  end.

(* ================================================================== *)
(** * SHA-256 ([hashlib.sha256], FIPS 180-4) *)

Module SHA256.
Open Scope Z_scope.

Definition w32 (x : Z) : Z := x mod 4294967296.
Definition add32 (x y : Z) : Z := w32 (x + y).
Definition rotr (n x : Z) : Z :=
  Z.lor (Z.shiftr x n) (w32 (Z.shiftl x (32 - n))).
Definition not32 (x : Z) : Z := Z.lxor x 0xFFFFFFFF.

Definition Ch (x y z : Z) : Z := Z.lxor (Z.land x y) (Z.land (not32 x) z).
Definition Maj (x y z : Z) : Z :=
  Z.lxor (Z.lxor (Z.land x y) (Z.land x z)) (Z.land y z).
Definition Sigma0 (x : Z) : Z :=
  Z.lxor (Z.lxor (rotr 2 x) (rotr 13 x)) (rotr 22 x).
Definition Sigma1 (x : Z) : Z :=
  Z.lxor (Z.lxor (rotr 6 x) (rotr 11 x)) (rotr 25 x).
Definition sigma0 (x : Z) : Z :=
  Z.lxor (Z.lxor (rotr 7 x) (rotr 18 x)) (Z.shiftr x 3).
Definition sigma1 (x : Z) : Z :=
  Z.lxor (Z.lxor (rotr 17 x) (rotr 19 x)) (Z.shiftr x 10).

(** Trial division. *)
Definition is_prime (p : Z) : bool :=
  (1 <? p)
  && forallb (fun d => negb (p mod d =? 0))
       (List.map (fun i => 2 + Z.of_nat i) (seq 0 (Z.to_nat (Z.sqrt p - 1)))).

(** The first 64 primes, 2 to 311. *)
Definition primes : list Z :=
  filter is_prime (List.map (fun i => 2 + Z.of_nat i) (seq 0 310)).

(** Integer cube root (floor) below 2^40, by bisection. *)
Fixpoint cube_root_between (fuel : nat) (lo hi n : Z) : Z :=
  match fuel with
  | O => lo
  | S fuel' =>
      if hi <=? lo then lo
      else let mid := (lo + hi + 1) / 2 in
           if mid ^ 3 <=? n then cube_root_between fuel' mid hi n
           else cube_root_between fuel' lo (mid - 1) n
  end.
Definition cube_root (n : Z) : Z := cube_root_between 45 0 (2 ^ 40) n.

(** The round constants: the first 32 bits of the fractional parts of the
    cube roots of the first 64 primes. *)
Definition K : list Z :=
  Eval vm_compute in
    List.map (fun p => w32 (cube_root (p * 2 ^ 96))) primes.

Record state : Set := State { sa : Z; sb : Z; sc : Z; sd : Z;
                              se : Z; sf : Z; sg : Z; sh : Z }.

(** The initial hash value: the first 32 bits of the fractional parts of the
    square roots of the first 8 primes. *)
Definition frac_sqrt (p : Z) : Z := w32 (Z.sqrt (p * 2 ^ 64)).
Definition H0 : state :=
  Eval vm_compute in
    State (frac_sqrt 2) (frac_sqrt 3) (frac_sqrt 5) (frac_sqrt 7)
          (frac_sqrt 11) (frac_sqrt 13) (frac_sqrt 17) (frac_sqrt 19).

(** The [n] low bytes of [x], most significant first. *)
Fixpoint be_bytes (n : nat) (x : Z) : bytes :=
  match n with
  | O => []
  | S n' => (x / 256 ^ Z.of_nat n') mod 256 :: be_bytes n' x
  end.

Definition be_word (b : bytes) : Z :=
  fold_left (fun acc x => acc * 256 + x) b 0.

(** Padding to a multiple of 64 bytes: 0x80, zeros, the bit length. *)
Definition pad (msg : bytes) : bytes :=
  let len := Z.of_nat (length msg) in
  msg ++ [0x80] ++ repeat 0 (Z.to_nat ((55 - len) mod 64))
      ++ be_bytes 8 (8 * len).

Fixpoint chunks (n k : nat) (l : bytes) : list bytes :=
  match n with
  | O => []
  | S n' => firstn k l :: chunks n' k (skipn k l)
  end.

(** [extend n w] appends the next [n] words of the message schedule. *)
Fixpoint extend (n : nat) (w : list Z) : list Z :=
  match n with
  | O => w
  | S n' =>
      let t := length w in
      let g := fun i => nth (t - i) w 0 in
      extend n' (w ++ [add32 (add32 (sigma1 (g 2%nat)) (g 7%nat))
                             (add32 (sigma0 (g 15%nat)) (g 16%nat))])
  end.

Definition round (s : state) (kw : Z * Z) : state :=
  let t1 := add32 (add32 (add32 (sh s) (Sigma1 (se s)))
                         (add32 (Ch (se s) (sf s) (sg s)) (fst kw)))
                  (snd kw) in
  let t2 := add32 (Sigma0 (sa s)) (Maj (sa s) (sb s) (sc s)) in
  State (add32 t1 t2) (sa s) (sb s) (sc s)
        (add32 (sd s) t1) (se s) (sf s) (sg s).

Definition compress (s : state) (block : bytes) : state :=
  let w := extend 48 (List.map be_word (chunks 16 4 block)) in
  let r := fold_left round (combine K w) s in
  State (add32 (sa s) (sa r)) (add32 (sb s) (sb r))
        (add32 (sc s) (sc r)) (add32 (sd s) (sd r))
        (add32 (se s) (se r)) (add32 (sf s) (sf r))
        (add32 (sg s) (sg r)) (add32 (sh s) (sh r)).

Definition final_state (msg : bytes) : state :=
  let p := pad msg in
  fold_left compress (chunks (length p / 64) 64 p) H0.

(** [hashlib.sha256(msg).digest()] *)
Definition digest (msg : bytes) : bytes :=
  let s := final_state msg in
  flat_map (be_bytes 4)
    [sa s; sb s; sc s; sd s; se s; sf s; sg s; sh s].

(** [hashlib.sha256(msg).hexdigest()] *)
Definition hexdigest (msg : bytes) : pystr := hex_of_bytes (digest msg).

End SHA256.

(* ================================================================== *)
(** * rpc_client.py *)

Definition MAX_SIGNATURES_LIMIT : Z := 100.

(** Minimal info for one transaction. *)
Record TxSignatureInfo : Set := {
  signature : pystr;
  block_time : option Z   (* Unix timestamp; can be None from RPC *)
}.

(** One entry of [response.value]; a missing attribute reads as [None], and
    [item_signature] is the [str] of the signature. *)
Record RpcItem : Set := {
  item_signature : option pystr;
  item_block_time : option Z
}.

Section RpcClient.

(** [solders.pubkey.Pubkey] and [Pubkey.from_string] ([None]: it raises). *)
Variable Pubkey : Type.
Variable Pubkey_from_string : pystr -> option Pubkey.
(** [client.get_signatures_for_address(pubkey, limit=limit)]: the
    [response.value], or the exception of the transport. *)
Variable get_signatures_for_address :
  Pubkey -> Z -> result (option (list RpcItem)).

Definition get_recent_transactions (wallet_address : pystr) (limit : Z)
  : result (list TxSignatureInfo) :=
  match Pubkey_from_string (strip wallet_address) with
  | None => Raise ValueError
  | Some pubkey =>
      value <- get_signatures_for_address pubkey limit ;;
      match value with
      | None => Ok []
      | Some items =>
          Ok (List.map
                (fun item =>
                   let sig_str := match item_signature item with
                                  | Some sig => sig
                                  | None => []
                                  end in
                   {| signature := sig_str;
                      block_time := item_block_time item |})
                items)
      end
  end.

End RpcClient.

(* ================================================================== *)
(** * analyzer.py *)

Definition TX_COUNT_FOR_FULL_ACTIVITY : Z := 100.
Definition ACTIVITY_LEVEL_LOW_THRESHOLD : f64 := lit 40.
Definition ACTIVITY_LEVEL_HIGH_THRESHOLD : f64 := lit 70.
Definition SECONDS_PER_MONTH : Z := 30 * 24 * 3600.
Definition MOCK_AGE_CAP_MONTHS : Z := 24.

Definition RISK_NEW_WALLET : pystr := str_of "new_wallet".
Definition RISK_LOW_ACTIVITY : pystr := str_of "low_activity".
Definition RISK_HIGH_CHURN : pystr := str_of "high_churn".
Definition RISK_SUSPICIOUS_PATTERNS : pystr := str_of "suspicious_patterns".

Inductive ActivityLevel : Set := low | medium | high.

Record WalletMetrics : Set := {
  tx_count : Z;
  wallet_age_months : Z;
  activity_score : f64;
  activity_level : ActivityLevel;
  suspicious_behavior_count : Z;
  risk_flags : list pystr
}.

Section Analyzer.
Open Scope Z_scope.

(** [x ** y] on two floats: the [pow] of the C library. *)
Variable fpow : f64 -> f64 -> f64.
(** The value [int(time.time())] reads. *)
Variable now : Z.
Variable Pubkey : Type.
Variable Pubkey_from_string : pystr -> option Pubkey.
Variable get_signatures_for_address :
  Pubkey -> Z -> result (option (list RpcItem)).

Definition _tx_count_to_activity_score (tx_count : Z) : result f64 :=
  if tx_count <=? 0 then Ok (lit 0)
  else if tx_count >=? TX_COUNT_FOR_FULL_ACTIVITY then Ok (lit 100)
  else
    ratio <- Py.int_truediv tx_count TX_COUNT_FOR_FULL_ACTIVITY ;;
    let score := fmul (lit 100) (fpow ratio (lit (6 # 10))) in
    Ok (Py.round1 (Py.min (lit 100) score)).

Definition _activity_score_to_level (score : f64) : ActivityLevel :=
  if flt score ACTIVITY_LEVEL_LOW_THRESHOLD then low
  else if fge score ACTIVITY_LEVEL_HIGH_THRESHOLD then high
  else medium.

Definition _oldest_block_time (infos : list TxSignatureInfo) : option Z :=
  let times := flat_map (fun i => match block_time i with
                                  | Some t => [t]
                                  | None => []
                                  end) infos in
  match times with
  | [] => None
  | t :: ts => Some (fold_left Z.min ts t)
  end.

Definition _wallet_age_months (oldest_ts : option Z) : result Z :=
  match oldest_ts with
  | None => Ok 0
  | Some oldest_ts =>
      if now <=? oldest_ts then Ok 0
      else
        months <- Py.int_truediv (now - oldest_ts) SECONDS_PER_MONTH ;;
        m <- Py.int months ;;
        Ok (Z.max 0 m)
  end.

Definition _mock_wallet_age_months (wallet : pystr) : result Z :=
  b <- encode_utf8 (strip wallet) ;;
  let h := SHA256.hexdigest b in
  v <- int16 (firstn 8 h) ;;
  Ok (v mod (MOCK_AGE_CAP_MONTHS + 1)).

Definition _compute_risk_flags (tx_count wallet_age_months : Z)
  (activity_score : f64) : list pystr :=
  let flags := [] in
  let flags := if wallet_age_months <? 3
               then flags ++ [RISK_NEW_WALLET] else flags in
  let flags := if tx_count <? 5
               then flags ++ [RISK_LOW_ACTIVITY] else flags in
  let flags := if fge activity_score (lit 80) && (wallet_age_months <? 6)
               then flags ++ [RISK_HIGH_CHURN] else flags in
  let flags := if (tx_count >? 0) && (tx_count mod 17 =? 0)
                  && (wallet_age_months <? 12)
               then flags ++ [RISK_SUSPICIOUS_PATTERNS] else flags in
  flags.

Definition analyze_wallet (wallet : pystr) : result WalletMetrics :=
  let wallet := strip wallet in
  txs <- get_recent_transactions Pubkey Pubkey_from_string
           get_signatures_for_address wallet MAX_SIGNATURES_LIMIT ;;
  let tx_count := Z.of_nat (List.length txs) in
  let oldest_ts := _oldest_block_time txs in
  wallet_age_months <-
    match oldest_ts with
    | Some _ => _wallet_age_months oldest_ts
    | None => _mock_wallet_age_months wallet
    end ;;
  activity_score <- _tx_count_to_activity_score tx_count ;;
  let activity_level := _activity_score_to_level activity_score in
  let risk_flags :=
    _compute_risk_flags tx_count wallet_age_months activity_score in
  let suspicious_behavior_count := Z.of_nat (List.length risk_flags) in
  Ok {| tx_count := tx_count;
        wallet_age_months := wallet_age_months;
        activity_score := activity_score;
        activity_level := activity_level;
        suspicious_behavior_count := suspicious_behavior_count;
        risk_flags := risk_flags |}.

End Analyzer.

(* ================================================================== *)
(** * ai-engine/scoring.py *)

Definition WEIGHT_AGE : f64 := lit (30 # 100).
Definition WEIGHT_ACTIVITY : f64 := lit (50 # 100).
Definition WEIGHT_RISK : f64 := lit (20 # 100).
Definition AGE_SCORE_PER_MONTH : f64 := lit 4.
Definition AGE_CAP_MONTHS : Z := 25.
Definition PENALTY_PER_FLAG : f64 := lit 25.
Definition THRESHOLD_LOW : Z := 70.
Definition THRESHOLD_MEDIUM : Z := 40.

Inductive RiskLevel : Set := Low | Medium | High.

Section Scoring.
Open Scope Z_scope.

(** The weighted sum [score_float] of [compute_trust_score]. *)
Definition score_float (metrics : WalletMetrics) : result f64 :=
  a <- Py.int_mul_float (wallet_age_months metrics) AGE_SCORE_PER_MONTH ;;
  let age_component := Py.min (lit 100) a in
  let activity_component := activity_score metrics in
  penalty <- Py.int_mul_float (suspicious_behavior_count metrics)
               PENALTY_PER_FLAG ;;
  let risk_component := Py.max (lit 0) (fsub (lit 100) penalty) in
  Ok (fadd (fadd (fmul WEIGHT_AGE age_component)
                 (fmul WEIGHT_ACTIVITY activity_component))
           (fmul WEIGHT_RISK risk_component)).

Definition compute_trust_score (metrics : WalletMetrics)
  : result (Z * RiskLevel) :=
  score_float <- score_float metrics ;;
  r <- Py.round score_float ;;
  let score := Z.max 0 (Z.min 100 r) in
  let risk_level := if score >=? THRESHOLD_LOW then Low
                    else if score >=? THRESHOLD_MEDIUM then Medium
                    else High in
  Ok (score, risk_level).

End Scoring.

(* ================================================================== *)
(** * The activity curve in exact arithmetic, and the accuracy of [pow] *)

Module Curve.
Open Scope Z_scope.

(** Newton's iteration for the integer fifth root, downwards from a
    starting point above the root. *)
Fixpoint root5_from (fuel : nat) (x n : Z) : Z :=
  match fuel with
  | O => x
  | S fuel' =>
      let y := (4 * x + n / x ^ 4) / 5 in
      if y <? x then root5_from fuel' y n else x
  end.

(** Integer fifth root (floor) of [n > 0]. *)
Definition root5 (n : Z) : Z := root5_from 100 (2 ^ (Z.log2 n / 5 + 1)) n.

(** [curve_tenths n] is [100 * (n/100)^(3/5)] rounded to the nearest tenth,
    in tenths: with [x = 100 * (n/100)^(3/5)] one has
    [(20 x)^5 = 32 * 10^9 * n^3], so [floor (20 x)] is an integer fifth
    root and the nearest integer to [10 x] is [(floor (20 x) + 1) / 2]. *)
Definition curve_tenths (n : Z) : Z := (root5 (32 * 10 ^ 9 * n ^ 3) + 1) / 2.

(** [is_curve_tenths n t]: [t - 1/2 < 10 * x < t + 1/2] for
    [x = 100 * (n/100)^(3/5)], stated on the fifth powers of the doubles. *)
Definition is_curve_tenths (n t : Z) : Prop :=
  (2 * t - 1) ^ 5 < 32 * 10 ^ 9 * n ^ 3 < (2 * t + 1) ^ 5.

Definition pow5 (x : Q) : Q := (x * x * x * x * x)%Q.

(** [pow_ok fpow n]: on the ratio the analyzer forms for a transaction count
    [n], [fpow ratio 0.6] is a positive finite number [p] whose fifth power
    is within a relative 2^-40 of [(n/100)^3]; that is, [p] is
    [(n/100)^(3/5)] up to a relative error of about 2^-42. *)
Definition pow_ok (fpow : f64 -> f64 -> f64) (n : Z) : bool :=
  match Py.int_truediv n TX_COUNT_FOR_FULL_ACTIVITY with
  | Ok ratio =>
      match fpow ratio (lit (6 # 10)) with
      | Fin p =>
          let c := (inject_Z (n ^ 3) / 1000000)%Q in
          Qltb 0 p
          && Qle_bool (c * (1 - pow2 (-40)))%Q (pow5 p)
          && Qle_bool (pow5 p) (c * (1 + pow2 (-40)))%Q
      | _ => false
      end
  | Raise _ => false
  end.

(** The assumption on the C library: [pow] is accurate, in the sense of
    [pow_ok], on the 99 ratios the analyzer can form. *)
Definition pow_accurate (fpow : f64 -> f64 -> f64) : Prop :=
  forall n, 1 <= n <= 99 -> pow_ok fpow n = true.

(** A reference [pow] for the exponent 0.6: the binary64 nearest to a
    60-bit approximation of [x^(3/5)] (the exponent is not inspected). *)
Definition pow_ref (x y : f64) : f64 :=
  match x with
  | Fin q =>
      if Qle_bool q 0 then NaN
      else RN (inject_Z (root5 (Qnum q ^ 3 * 2 ^ 300 / Zpos (Qden q) ^ 3))
               / inject_Z (2 ^ 60))
  | _ => NaN
  end.

End Curve.

(* ================================================================== *)
(** * The scoring formula of the specification *)

(** Integers from [INT_FLOAT_BOUND] on round to 2^1024 and do not convert
    to a float. *)
Definition INT_FLOAT_BOUND : Z := 2 ^ 1024 - 2 ^ 970.

(** [0.30 * min(100, age * 4) + 0.50 * activity
     + 0.20 * max(0, 100 - count * 25)], the two clamped components taken
    exactly, the products and sums in binary64. *)
Definition weighted_sum (age : Z) (activity : f64) (count : Z) : f64 :=
  fadd (fadd (fmul (lit (30 # 100)) (lit (Qmin 100 (inject_Z age * 4))))
             (fmul (lit (50 # 100)) activity))
       (fmul (lit (20 # 100)) (lit (Qmax 0 (100 - inject_Z count * 25)))).

(** A wallet age no float can hold. *)
Definition huge_age_metrics : WalletMetrics :=
  {| tx_count := 0; wallet_age_months := 2 ^ 1024;
     activity_score := lit 0; activity_level := low;
     suspicious_behavior_count := 0; risk_flags := [] |}.

(* ================================================================== *)
(** * Test doubles for the collaborators *)

Module Demo.
Open Scope Z_scope.

(** An address parser that accepts every non-empty string. *)
Definition from_string (s : pystr) : option pystr :=
  match s with
  | [] => None
  | _ => Some s
  end.

(** A ledger that knows three transactions of every address, the oldest
    from 2023-11-14, one of them without a block time. *)
Definition history (pubkey : pystr) (limit : Z)
  : result (option (list RpcItem)) :=
  Ok (Some [ {| item_signature := Some (str_of "sig3");
                item_block_time := Some 1750000000 |};
             {| item_signature := Some (str_of "sig2");
                item_block_time := None |};
             {| item_signature := Some (str_of "sig1");
                item_block_time := Some 1700000000 |} ]).

(** A ledger whose only record of an address has no block time. *)
Definition no_timestamp (pubkey : pystr) (limit : Z)
  : result (option (list RpcItem)) :=
  Ok (Some [ {| item_signature := Some (str_of "sig1");
                item_block_time := None |} ]).

(** 2025-11-03 00:00:00 UTC. *)
Definition now : Z := 1762128000.

(** The metrics of the address "4Nd1m" on the ledger [history] at [now]. *)
Definition metrics : WalletMetrics :=
  {| tx_count := 3; wallet_age_months := 23;
     activity_score := lit (122 # 10); activity_level := low;
     suspicious_behavior_count := 1;
     risk_flags := [RISK_LOW_ACTIVITY] |}.

End Demo.

(* ================================================================== *)
(** * Checked bounds for the activity curve *)

Module CurveCheck.
Import Curve.
Open Scope Z_scope.

(** [(n/100)^3] *)
Definition cube_ratio (n : Z) : Q := (inject_Z (n ^ 3) / 1000000)%Q.

(** The ends of the rounding cell of [curve_tenths n], as values of
    [(n/100)^(3/5)], moved inwards by a relative 2^-30: they enclose every
    [p] accepted by [pow_ok] for [n]. *)
Definition pow_lower (n : Z) : Q :=
  (inject_Z ((2 * curve_tenths n - 1) * (2 ^ 30 + 1))
   / inject_Z (2000 * 2 ^ 30))%Q.
Definition pow_upper (n : Z) : Q :=
  (inject_Z ((2 * curve_tenths n + 1) * (2 ^ 30 - 1))
   / inject_Z (2000 * 2 ^ 30))%Q.

(** [min(100.0, s)] on a finite [s]. *)
Definition clamp100 (s : Q) : Q := if Qltb s 100 then s else 100.

(** The tenths [round(min(100.0, 100.0 * p), 1)] stands for. *)
Definition tenths_of (p : Q) : Z := rhe (clamp100 (rnd (100 * p)) * 10).

(** Everything the proof for one [n] needs of the numbers: the bounds
    enclose, both ends give the tenths of the exact curve, and those
    tenths are the nearest to the exact curve. *)
Definition curve_facts (n : Z) : Prop :=
  (0 < pow_lower n)%Q
  /\ (pow5 (pow_lower n) <= cube_ratio n * (1 - pow2 (-40)))%Q
  /\ (cube_ratio n * (1 + pow2 (-40)) <= pow5 (pow_upper n))%Q
  /\ (0 < pow_upper n <= 1)%Q
  /\ tenths_of (pow_lower n) = curve_tenths n
  /\ tenths_of (pow_upper n) = curve_tenths n
  /\ is_curve_tenths n (curve_tenths n)
  /\ curve_tenths n < 1000.

End CurveCheck.

(* ================================================================== *)
(** * The activity score in tenths *)

(** The tenths of the activity score of a transaction count, in exact
    arithmetic: 0 up to no transaction, 1000 from the cap, the rounded
    curve in between. *)
Definition activity_tenths (n : Z) : Z :=
  (if n <=? 0 then 0
   else if n >=? TX_COUNT_FOR_FULL_ACTIVITY then 1000
   else Curve.curve_tenths n)%Z.

(* ================================================================== *)
(** * Wallets without transactions *)

(** The metrics [analyze_wallet] builds from an empty fetch and the mock
    age [age]. *)
Definition no_tx_metrics (age : Z) : WalletMetrics :=
  {| tx_count := 0; wallet_age_months := age;
     activity_score := lit 0;
     activity_level := _activity_score_to_level (lit 0);
     suspicious_behavior_count :=
       Z.of_nat (List.length (_compute_risk_flags 0 age (lit 0)));
     risk_flags := _compute_risk_flags 0 age (lit 0) |}.

(** The trust score is computed, lies in [lo, hi], and its level is not
    Low. *)
Definition scored_not_low (lo hi : Z) (m : WalletMetrics) : bool :=
  match compute_trust_score m with
  | Ok (score, level) =>
      (lo <=? score)%Z && (score <=? hi)%Z
      && match level with Low => false | _ => true end
  | Raise _ => false
  end.

(** A ledger that knows no transaction of any address
    ([response.value] is [None]). *)
Definition unknown_ledger (pubkey : pystr) (limit : Z)
  : result (option (list RpcItem)) := Ok None.

(* ================================================================== *)
(** * models.py *)

(** The response models.  Constructing a pydantic model validates the
    [Field] constraints; [None] stands for the validation error. *)
Module Models.
Open Scope Z_scope.

Record TrustMetrics : Set := {
  tx_count : Z;
  wallet_age_months : Z;
  activity_score : f64;
  activity_level : ActivityLevel;
  suspicious_behavior_count : Z;
  risk_flags : list pystr
}.

Definition new_TrustMetrics (tx_count wallet_age_months : Z)
  (activity_score : f64) (activity_level : ActivityLevel)
  (suspicious_behavior_count : Z) (risk_flags : list pystr)
  : option TrustMetrics :=
  if (tx_count >=? 0) && (wallet_age_months >=? 0)
     && fge activity_score (lit 0) && fle activity_score (lit 100)
     && (suspicious_behavior_count >=? 0)
  then Some {| tx_count := tx_count;
               wallet_age_months := wallet_age_months;
               activity_score := activity_score;
               activity_level := activity_level;
               suspicious_behavior_count := suspicious_behavior_count;
               risk_flags := risk_flags |}
  else None.

Record TrustScoreResponse : Set := {
  wallet : pystr;
  trust_score : Z;
  risk_level : RiskLevel;
  metrics : TrustMetrics
}.

Definition new_TrustScoreResponse (wallet : pystr) (trust_score : Z)
  (risk_level : RiskLevel) (metrics : TrustMetrics)
  : option TrustScoreResponse :=
  if (trust_score >=? 0) && (trust_score <=? 100)
  then Some {| wallet := wallet; trust_score := trust_score;
               risk_level := risk_level; metrics := metrics |}
  else None.

End Models.

(* ================================================================== *)
(** * main.py *)

(** How a call of the handler ends: with a response, with an
    [HTTPException], with a validation error of a response model, or with
    an exception it does not catch. *)
Inductive outcome : Set :=
| Returns (response : Models.TrustScoreResponse)
| HTTPException (status_code : Z)
| ValidationError
| Propagates (e : exn).

(** [isinstance(e, ValueError)]: [UnicodeEncodeError] is a subclass. *)
Definition is_ValueError (e : exn) : bool :=
  match e with
  | ValueError | UnicodeEncodeError => true
  | _ => false
  end.

Section Main.
Open Scope Z_scope.

Variable fpow : f64 -> f64 -> f64.
Variable now : Z.
Variable Pubkey : Type.
Variable Pubkey_from_string : pystr -> option Pubkey.
Variable get_signatures_for_address :
  Pubkey -> Z -> result (option (list RpcItem)).
(** [db.insert_trust_record]: the row is written, or sqlite raises. *)
Variable insert_trust_record :
  pystr -> Z -> RiskLevel -> Z -> Z -> f64 -> list pystr -> result unit.

Definition trust_score (body_wallet : pystr) : outcome :=
  let wallet := strip body_wallet in
  match wallet with
  | [] => HTTPException 400
  | _ =>
      match analyze_wallet fpow now Pubkey Pubkey_from_string
              get_signatures_for_address wallet with
      | Raise e =>
          if is_ValueError e then HTTPException 400 else HTTPException 503
      | Ok metrics =>
          match compute_trust_score metrics with
          | Raise e => Propagates e
          | Ok (score, risk_level) =>
              match insert_trust_record wallet score risk_level
                      (tx_count metrics) (wallet_age_months metrics)
                      (activity_score metrics) (risk_flags metrics) with
              | Raise e => Propagates e
              | Ok _ =>
                  match Models.new_TrustMetrics
                          (tx_count metrics) (wallet_age_months metrics)
                          (activity_score metrics) (activity_level metrics)
                          (suspicious_behavior_count metrics)
                          (risk_flags metrics) with
                  | None => ValidationError
                  | Some api_metrics =>
                      match Models.new_TrustScoreResponse wallet score
                              risk_level api_metrics with
                      | None => ValidationError
                      | Some response => Returns response
                      end
                  end
              end
          end
      end
  end.

End Main.

(** A database that accepts every row. *)
Definition accept_row (wallet : pystr) (trust_score : Z)
  (risk_level : RiskLevel) (tx_count wallet_age_months : Z)
  (activity_score : f64) (risk_flags : list pystr) : result unit := Ok tt.

(** A ledger that cannot be reached. *)
Definition unreachable_ledger (pubkey : pystr) (limit : Z)
  : result (option (list RpcItem)) := Raise RpcError.

(* ================================================================== *)
(** * Properties of rounding *)

Section Rounding.
Open Scope Q_scope.

Lemma pow2_pos e : 0 < pow2 e.
Proof. apply Qpower_0_lt. reflexivity. Qed.

Lemma pow2_add a b : pow2 (a + b) == pow2 a * pow2 b.
Proof. apply Qpower_plus. discriminate. Qed.

Lemma pow2_le a b : (a <= b)%Z -> pow2 a <= pow2 b.
Proof. intros. apply Qpower_le_compat_l; [assumption | discriminate ]. Qed.

Lemma pow2_lt a b : (a < b)%Z -> pow2 a < pow2 b.
Proof. intros. apply Qpower_lt_compat_l; [assumption | reflexivity ]. Qed.

Lemma pow2_inv_l e : pow2 (- e) * pow2 e == 1.
Proof. rewrite <- pow2_add. replace (- e + e)%Z with 0%Z by lia. reflexivity. Qed.

Lemma pow2_Z e : (0 <= e)%Z -> pow2 e == inject_Z (2 ^ e).
Proof. intros. unfold pow2. rewrite Zpower_Qpower by assumption. reflexivity. Qed.

Lemma quotient_bounds (N D x : Q) (a b : Z) :
  pow2 a <= N -> N < pow2 (a + 1) -> pow2 b <= D -> D < pow2 (b + 1) ->
  x * D == N -> 0 < x ->
  pow2 (a - b - 1) < x /\ x < pow2 (a - b + 1).
Proof.
  intros E2 E1 E4 E3 Hx Hxpos. split.
  - apply Qnot_le_lt. intro C.
    assert (H1 : x * D < x * pow2 (b + 1)) by (apply Qmult_lt_l; assumption).
    assert (H2 : x * pow2 (b + 1) <= pow2 (a - b - 1) * pow2 (b + 1)).
    { apply Qmult_le_compat_r; [assumption | apply Qlt_le_weak, pow2_pos]. }
    rewrite <- pow2_add in H2. replace (a - b - 1 + (b + 1))%Z with a in H2 by lia.
    rewrite Hx in H1. lra.
  - apply Qnot_le_lt. intro C.
    assert (H : pow2 (a - b + 1) * pow2 b <= x * D).
    { apply Qmult_le_compat_nonneg; split; try assumption; apply Qlt_le_weak, pow2_pos. }
    rewrite <- pow2_add in H. replace (a - b + 1 + b)%Z with (a+1)%Z in H by lia.
    rewrite Hx in H. lra.
Qed.

Lemma ilog2_spec q : 0 < q -> pow2 (ilog2 q) <= q /\ q < pow2 (ilog2 q + 1).
Proof.
  intros Hq. destruct q as [n d]. unfold ilog2. cbn [Qnum Qden].
  assert (Hn : (0 < n)%Z) by (unfold Qlt in Hq; cbn in Hq; lia).
  destruct (Z.log2_spec n Hn) as [Hn1 Hn2].
  destruct (Z.log2_spec (Zpos d) (Pos2Z.is_pos d)) as [Hd1 Hd2].
  set (a := Z.log2 n) in *. set (b := Z.log2 (Zpos d)) in *.
  assert (Ha : (0 <= a)%Z) by apply Z.log2_nonneg.
  assert (Hb : (0 <= b)%Z) by apply Z.log2_nonneg.
  assert (E1 : inject_Z n < pow2 (a + 1)).
  { rewrite pow2_Z by lia. rewrite <- Zlt_Qlt. replace (a+1)%Z with (Z.succ a) by lia. exact Hn2. }
  assert (E2 : pow2 a <= inject_Z n).
  { rewrite pow2_Z by lia. rewrite <- Zle_Qle. exact Hn1. }
  assert (E3 : inject_Z (Zpos d) < pow2 (b + 1)).
  { rewrite pow2_Z by lia. rewrite <- Zlt_Qlt. replace (b+1)%Z with (Z.succ b) by lia. exact Hd2. }
  assert (E4 : pow2 b <= inject_Z (Zpos d)).
  { rewrite pow2_Z by lia. rewrite <- Zle_Qle. exact Hd1. }
  assert (Hx : (n # d) * inject_Z (Zpos d) == inject_Z n).
  { rewrite (Qmake_Qdiv n d). field. discriminate. }
  destruct (quotient_bounds _ _ _ _ _ E2 E1 E4 E3 Hx Hq) as [L U].
  destruct (Qle_bool (pow2 (a - b)) (n # d)) eqn:T.
  - apply Qle_bool_iff in T. split; assumption.
  - split.
    + apply Qlt_le_weak; assumption.
    + replace (a - b - 1 + 1)%Z with (a - b)%Z by lia.
      apply Qnot_le_lt. intro C. apply Qle_bool_iff in C. congruence.
Qed.

Lemma ilog2_unique q k : pow2 k <= q -> q < pow2 (k + 1) -> ilog2 q = k.
Proof.
  intros H1 H2.
  assert (Hq : 0 < q) by (eapply Qlt_le_trans; [apply pow2_pos | eassumption]).
  destruct (ilog2_spec q Hq) as [S1 S2].
  destruct (Z.lt_trichotomy (ilog2 q) k) as [C|[C|C]]; [exfalso | assumption | exfalso].
  - assert (pow2 (ilog2 q + 1) <= pow2 k) by (apply pow2_le; lia). lra.
  - assert (pow2 (k + 1) <= pow2 (ilog2 q)) by (apply pow2_le; lia). lra.
Qed.

Lemma ilog2_comp p q : 0 < p -> p == q -> ilog2 p = ilog2 q.
Proof.
  intros Hp E. symmetry. destruct (ilog2_spec p Hp).
  apply ilog2_unique; rewrite <- E; assumption.
Qed.

Lemma ilog2_mono p q : 0 < p -> p <= q -> (ilog2 p <= ilog2 q)%Z.
Proof.
  intros Hp Hpq. assert (Hq : 0 < q) by lra.
  destruct (ilog2_spec p Hp), (ilog2_spec q Hq).
  destruct (Z_le_gt_dec (ilog2 p) (ilog2 q)); [assumption | exfalso].
  assert (pow2 (ilog2 q + 1) <= pow2 (ilog2 p)) by (apply pow2_le; lia). lra.
Qed.

Lemma inject_Z_succ z : inject_Z (z + 1) == inject_Z z + 1.
Proof. rewrite inject_Z_plus. reflexivity. Qed.

Lemma rhe_cases x :
  let n := rhe x in
  (inject_Z n - (1#2) < x /\ x < inject_Z n + (1#2)) \/
  ((x == inject_Z n - (1#2) \/ x == inject_Z n + (1#2)) /\ Z.even n = true).
Proof.
  unfold rhe. pose proof (Qfloor_le x) as H1. pose proof (Qlt_floor x) as H2.
  rewrite inject_Z_succ in H2. set (f := Qfloor x) in *.
  destruct (Qcompare_spec (x - inject_Z f) (1 # 2)) as [E|E|E].
  - destruct (Z.even f) eqn:Ev.
    + right. split; [right; lra | assumption].
    + right. rewrite inject_Z_succ. split; [left; lra |].
      rewrite Z.even_add, Ev. reflexivity.
  - left. lra.
  - left. rewrite inject_Z_succ. lra.
Qed.

Lemma rhe_unique x n :
  (inject_Z n - (1#2) < x /\ x < inject_Z n + (1#2)) \/
  ((x == inject_Z n - (1#2) \/ x == inject_Z n + (1#2)) /\ Z.even n = true) ->
  rhe x = n.
Proof.
  intros H. pose proof (rhe_cases x) as R. cbv zeta in R. set (m := rhe x) in *.
  destruct (Z.lt_trichotomy m n) as [C|[C|C]]; [exfalso | assumption | exfalso].
  - assert (D : inject_Z m + 1 <= inject_Z n) by (rewrite <- inject_Z_succ, <- Zle_Qle; lia).
    destruct H as [[H1 H2]|[[H|H] Hev]], R as [[R1 R2]|[[R|R] Rev]]; try lra.
    assert (n = m + 1)%Z.
    { apply Z.le_antisymm; [| lia]. rewrite Zle_Qle, inject_Z_succ. lra. }
    subst n. rewrite Z.even_add, Rev in Hev. discriminate.
  - assert (D : inject_Z n + 1 <= inject_Z m) by (rewrite <- inject_Z_succ, <- Zle_Qle; lia).
    destruct H as [[H1 H2]|[[H|H] Hev]], R as [[R1 R2]|[[R|R] Rev]]; try lra.
    assert (m = n + 1)%Z.
    { apply Z.le_antisymm; [| lia]. rewrite Zle_Qle, inject_Z_succ. lra. }
    subst m. rewrite H0 in Rev. rewrite Z.even_add, Hev in Rev. discriminate.
Qed.

Lemma rhe_Z n : rhe (inject_Z n) = n.
Proof. apply rhe_unique. left. lra. Qed.

Lemma rhe_opp x : rhe (- x) = (- rhe x)%Z.
Proof.
  apply rhe_unique. pose proof (rhe_cases x) as R. cbv zeta in R.
  rewrite inject_Z_opp, Z.even_opp.
  destruct R as [R|[[R|R] Rev]]; [left; lra | right | right]; (split; [| assumption]).
  - right. lra.
  - left. lra.
Qed.

Lemma rhe_mono x y : x <= y -> (rhe x <= rhe y)%Z.
Proof.
  intros Hxy. pose proof (rhe_cases x) as Rx. pose proof (rhe_cases y) as Ry. cbv zeta in *.
  destruct (Z_le_gt_dec (rhe x) (rhe y)) as [|C]; [assumption | exfalso].
  assert (D : inject_Z (rhe y) + 1 <= inject_Z (rhe x)) by (rewrite <- inject_Z_succ, <- Zle_Qle; lia).
  destruct Rx as [Rx|[[Rx|Rx] Ex]], Ry as [Ry|[[Ry|Ry] Ey]]; try lra.
  assert (rhe x = rhe y + 1)%Z.
  { apply Z.le_antisymm; [| lia]. rewrite Zle_Qle, inject_Z_succ. lra. }
  rewrite H, Z.even_add, Ey in Ex. discriminate.
Qed.

#[global] Instance rhe_comp : Proper (Qeq ==> eq) rhe.
Proof.
  intros x y E. apply Z.le_antisymm; apply rhe_mono; rewrite E; apply Qle_refl.
Qed.

Lemma Qabs_nz q : ~ q == 0 -> 0 < Qabs q.
Proof.
  intros H. apply Qabs_case; intros H1.
  - destruct (Qle_lt_or_eq _ _ H1) as [|E]; [assumption | exfalso; apply H; symmetry; exact E].
  - destruct (Qle_lt_or_eq _ _ H1) as [|E]; [lra | exfalso; apply H; exact E].
Qed.

Lemma ulp_exp_comp p q : ~ p == 0 -> p == q -> ulp_exp p = ulp_exp q.
Proof.
  intros Hp E. unfold ulp_exp. f_equal. f_equal. apply ilog2_comp.
  - apply Qabs_nz; assumption.
  - rewrite E. reflexivity.
Qed.

#[global] Instance rnd_comp : Proper (Qeq ==> eq) rnd.
Proof.
  intros p q E. unfold rnd.
  rewrite (Qeqb_comp _ _ E 0 0 (Qeq_refl 0)).
  destruct (Qeq_bool q 0) eqn:Z0; [reflexivity |].
  apply Qeq_bool_neq in Z0.
  rewrite (ulp_exp_comp p q) by (trivial; rewrite E; assumption).
  apply Qred_complete. rewrite E. reflexivity.
Qed.

Lemma rnd_0 : rnd 0 = 0.
Proof. reflexivity. Qed.

Lemma rnd_eq q : ~ q == 0 ->
  rnd q == inject_Z (rhe (q * pow2 (- ulp_exp q))) * pow2 (ulp_exp q).
Proof.
  intros H. unfold rnd. destruct (Qeq_bool q 0) eqn:Z0.
  - apply Qeq_bool_eq in Z0. contradiction.
  - apply Qred_correct.
Qed.

Lemma ulp_exp_opp q : ulp_exp (- q) = ulp_exp q.
Proof.
  destruct (Qeq_dec q 0) as [E|NE].
  - unfold ulp_exp. f_equal. f_equal. unfold ilog2. destruct q as [n d].
    unfold Qeq in E; cbn in E. assert (n = 0%Z) by lia. subst. reflexivity.
  - unfold ulp_exp. f_equal. f_equal. apply ilog2_comp.
    + apply Qabs_nz. intro. apply NE. lra.
    + apply Qabs_opp.
Qed.

Lemma rnd_opp q : rnd (- q) = - rnd q.
Proof.
  unfold rnd. destruct (Qeq_bool q 0) eqn:Z0.
  - apply Qeq_bool_eq in Z0. assert (E : - q == 0) by lra.
    apply Qeq_eq_bool in E. rewrite E. reflexivity.
  - apply Qeq_bool_neq in Z0. destruct (Qeq_bool (- q) 0) eqn:Z1.
    + apply Qeq_bool_eq in Z1. exfalso. apply Z0. lra.
    + rewrite ulp_exp_opp. rewrite <- Qred_opp. apply Qred_complete.
      assert (E : - q * pow2 (- ulp_exp q) == - (q * pow2 (- ulp_exp q))) by ring.
      rewrite E, rhe_opp, inject_Z_opp. ring.
Qed.

Lemma ulp_exp_pos q : 0 < q -> ulp_exp q = Z.max (ilog2 q - 52) (-1074).
Proof.
  intros H. unfold ulp_exp. f_equal. f_equal. apply ilog2_comp.
  - apply Qabs_nz. intro E. rewrite E in H. discriminate.
  - apply Qabs_pos. lra.
Qed.

Lemma scaled_le q e B : 0 <= q -> q <= pow2 (e + B) -> q * pow2 (- e) <= pow2 B.
Proof.
  intros H0 H. assert (E : pow2 B == pow2 (e + B) * pow2 (- e)).
  { rewrite <- pow2_add. replace (e + B + - e)%Z with B by lia. reflexivity. }
  rewrite E. apply Qmult_le_compat_r; [assumption | apply Qlt_le_weak, pow2_pos].
Qed.

Lemma scaled_ge q e B : pow2 (e + B) <= q -> pow2 B <= q * pow2 (- e).
Proof.
  intros H. assert (E : pow2 B == pow2 (e + B) * pow2 (- e)).
  { rewrite <- pow2_add. replace (e + B + - e)%Z with B by lia. reflexivity. }
  rewrite E. apply Qmult_le_compat_r; [assumption | apply Qlt_le_weak, pow2_pos].
Qed.

Lemma rnd_nonneg q : 0 <= q -> 0 <= rnd q.
Proof.
  intros H. destruct (Qeq_dec q 0) as [E|NE].
  - rewrite (rnd_comp _ _ E). apply Qle_refl.
  - rewrite (rnd_eq q NE). apply Qmult_le_0_compat; [| apply Qlt_le_weak, pow2_pos].
    replace 0 with (inject_Z 0) by reflexivity. rewrite <- Zle_Qle.
    rewrite <- (rhe_Z 0). apply rhe_mono. cbn.
    apply Qmult_le_0_compat; [assumption | apply Qlt_le_weak, pow2_pos].
Qed.

Lemma rnd_upper q : 0 < q -> rnd q <= pow2 (ulp_exp q + 53).
Proof.
  intros H. assert (NE : ~ q == 0) by (intro E; rewrite E in H; discriminate).
  rewrite (rnd_eq q NE). set (e := ulp_exp q).
  assert (He : (ilog2 q - 52 <= e)%Z) by (unfold e; rewrite ulp_exp_pos by assumption; lia).
  destruct (ilog2_spec q H) as [_ U].
  assert (Hq : q <= pow2 (e + 53)).
  { apply Qle_trans with (pow2 (ilog2 q + 1)); [lra | apply pow2_le; lia]. }
  rewrite pow2_add, (Qmult_comm (pow2 e)). apply Qmult_le_compat_r; [| apply Qlt_le_weak, pow2_pos].
  rewrite (pow2_Z 53) by lia. rewrite <- Zle_Qle. rewrite <- (rhe_Z (2 ^ 53)).
  apply rhe_mono. rewrite <- (pow2_Z 53) by lia. apply scaled_le; [lra | assumption].
Qed.

Lemma rnd_lower q : 0 < q -> (-1074 < ulp_exp q)%Z -> pow2 (ulp_exp q + 52) <= rnd q.
Proof.
  intros H Hn. assert (NE : ~ q == 0) by (intro E; rewrite E in H; discriminate).
  rewrite (rnd_eq q NE). set (e := ulp_exp q) in *.
  assert (He : e = (ilog2 q - 52)%Z) by (unfold e in *; rewrite ulp_exp_pos in * by assumption; lia).
  destruct (ilog2_spec q H) as [L _].
  assert (Hq : pow2 (e + 52) <= q) by (replace (e + 52)%Z with (ilog2 q) by lia; assumption).
  rewrite pow2_add, (Qmult_comm (pow2 e)). apply Qmult_le_compat_r; [| apply Qlt_le_weak, pow2_pos].
  rewrite (pow2_Z 52) by lia. rewrite <- Zle_Qle. rewrite <- (rhe_Z (2 ^ 52)) at 1.
  apply rhe_mono. rewrite <- (pow2_Z 52) by lia. apply scaled_ge; assumption.
Qed.

Lemma rnd_mono_pos p q : 0 < p -> p <= q -> rnd p <= rnd q.
Proof.
  intros Hp Hpq. assert (Hq : 0 < q) by lra.
  assert (He : (ulp_exp p <= ulp_exp q)%Z).
  { rewrite !ulp_exp_pos by assumption. pose proof (ilog2_mono p q Hp Hpq). lia. }
  destruct (Z.eq_dec (ulp_exp p) (ulp_exp q)) as [E|NE].
  - rewrite (rnd_eq p), (rnd_eq q) by (intro C; rewrite C in *; discriminate).
    rewrite E. apply Qmult_le_compat_r; [| apply Qlt_le_weak, pow2_pos].
    rewrite <- Zle_Qle. apply rhe_mono.
    apply Qmult_le_compat_r; [assumption | apply Qlt_le_weak, pow2_pos].
  - apply Qle_trans with (pow2 (ulp_exp p + 53)); [apply rnd_upper; assumption |].
    apply Qle_trans with (pow2 (ulp_exp q + 52)); [apply pow2_le; lia |].
    apply rnd_lower; [assumption |]. assert (-1074 <= ulp_exp p)%Z by (unfold ulp_exp; lia). lia.
Qed.

Theorem rnd_mono p q : p <= q -> rnd p <= rnd q.
Proof.
  intros Hpq. destruct (Qlt_le_dec 0 p) as [Hp|Hp].
  - apply rnd_mono_pos; assumption.
  - destruct (Qlt_le_dec q 0) as [Hq|Hq].
    + assert (H : rnd (- q) <= rnd (- p)) by (apply rnd_mono_pos; lra).
      rewrite !rnd_opp in H. lra.
    + apply Qle_trans with 0; [| apply rnd_nonneg; assumption].
      assert (H : 0 <= rnd (- p)) by (apply rnd_nonneg; lra).
      rewrite rnd_opp in H. lra.
Qed.

End Rounding.

(* ================================================================== *)
(** * Properties of the binary64 operations *)

Lemma Ok_inj (A : Type) (x y : A) : Ok x = Ok y -> x = y.
Proof. intros H. injection H as H. exact H. Qed.

Section FloatFacts.
Open Scope Q_scope.

Lemma Qltb_lt x y : Qltb x y = true <-> x < y.
Proof.
  unfold Qltb. rewrite negb_true_iff. split; intros H.
  - apply Qnot_le_lt. intro C. apply Qle_bool_iff in C. congruence.
  - destruct (Qle_bool y x) eqn:E; [| reflexivity].
    apply Qle_bool_iff in E. lra.
Qed.

Lemma Qltb_ge x y : Qltb x y = false <-> y <= x.
Proof.
  unfold Qltb. rewrite negb_false_iff. apply Qle_bool_iff.
Qed.

Lemma Qle_bool_false x y : Qle_bool x y = false <-> y < x.
Proof.
  split; intros H.
  - apply Qnot_le_lt. intro C. apply Qle_bool_iff in C. congruence.
  - destruct (Qle_bool x y) eqn:E; [| reflexivity].
    apply Qle_bool_iff in E. lra.
Qed.

(** [overflows] is the comparison with 2^1024. *)
Lemma overflows_spec r : overflows r = true <-> pow2 1024 <= Qabs r.
Proof.
  unfold overflows. destruct (Qeq_bool r 0) eqn:Z0.
  - apply Qeq_bool_eq in Z0. split; [discriminate |].
    intros H. pose proof (pow2_pos 1024) as P. rewrite Z0 in H.
    change (Qabs 0) with 0 in H. lra.
  - apply Qeq_bool_neq in Z0. pose proof (Qabs_nz r Z0) as Hp.
    destruct (ilog2_spec _ Hp) as [L U]. rewrite Z.leb_le. split; intros H.
    + apply Qle_trans with (pow2 (ilog2 (Qabs r))); [apply pow2_le |]; assumption.
    + destruct (Z_le_gt_dec 1024 (ilog2 (Qabs r))) as [|C]; [assumption | exfalso].
      assert (pow2 (ilog2 (Qabs r) + 1) <= pow2 1024) by (apply pow2_le; lia). lra.
Qed.

Lemma overflows_false r : overflows r = false <-> Qabs r < pow2 1024.
Proof.
  split; intros H.
  - apply Qnot_le_lt. intro C. apply overflows_spec in C. congruence.
  - destruct (overflows r) eqn:E; [| reflexivity].
    apply overflows_spec in E. lra.
Qed.

Lemma rnd_pow2_1023 : rnd (pow2 1023) = pow2 1023.
Proof. vm_compute. reflexivity. Qed.

Lemma pow2_1023_lt : pow2 1023 < pow2 1024.
Proof. apply pow2_lt. lia. Qed.

(** Within the binary64 range, rounding does not overflow. *)
Lemma RN_Fin q : - pow2 1023 <= q <= pow2 1023 -> RN q = Fin (rnd q).
Proof.
  intros [Hl Hu]. unfold RN.
  assert (U : rnd q <= pow2 1023) by (rewrite <- rnd_pow2_1023; apply rnd_mono; assumption).
  assert (L : - pow2 1023 <= rnd q).
  { rewrite <- rnd_pow2_1023, <- rnd_opp. apply rnd_mono; assumption. }
  assert (A : Qabs (rnd q) <= pow2 1023) by (apply Qabs_Qle_condition; split; assumption).
  pose proof pow2_1023_lt.
  replace (overflows (rnd q)) with false; [reflexivity |].
  symmetry. apply overflows_false. lra.
Qed.

Lemma RN_between q lo hi :
  lo <= q <= hi -> - pow2 1023 <= lo -> hi <= pow2 1023 ->
  RN q = Fin (rnd q) /\ rnd lo <= rnd q <= rnd hi.
Proof.
  intros [H1 H2] Hl Hh. split; [apply RN_Fin; split; lra |].
  split; apply rnd_mono; assumption.
Qed.

(** A finite result of [RN] is the rounded value. *)
Lemma RN_Fin_inv q r : RN q = Fin r -> r = rnd q.
Proof.
  unfold RN. destruct (overflows _); congruence.
Qed.

(** An overflow has the sign of the rounded value. *)
Lemma RN_Inf_inv q s :
  RN q = Inf s -> pow2 1024 <= Qabs (rnd q) /\ s = Qltb (rnd q) 0.
Proof.
  unfold RN. destruct (overflows _) eqn:E; [| discriminate].
  intros H. injection H as <-. apply overflows_spec in E. split; [assumption | reflexivity].
Qed.

Lemma RN_not_NaN q : RN q <> NaN.
Proof. unfold RN. destruct (overflows _); discriminate. Qed.

#[global] Instance RN_comp : Proper (Qeq ==> eq) RN.
Proof. intros p q E. unfold RN. rewrite (rnd_comp _ _ E). reflexivity. Qed.

Lemma fadd_Fin_inv x y q :
  fadd x y = Fin q -> exists a b, x = Fin a /\ y = Fin b /\ q = rnd (a + b).
Proof.
  destruct x as [a|s|], y as [b|t|]; simpl; try discriminate.
  - intros H. exists a, b. repeat split. apply RN_Fin_inv. assumption.
  - destruct (Bool.eqb s t); discriminate.
Qed.

Lemma pow2_1024_pos : 0 < pow2 1024.
Proof. apply pow2_pos. Qed.

(** Rounding a value at least [c] gives a float at least [rnd c]: finite
    and above, or plus infinity. *)
Lemma RN_ge q c :
  c <= q -> 0 <= rnd c ->
  (exists r, RN q = Fin r /\ rnd c <= r) \/ RN q = Inf false.
Proof.
  intros H Hc. assert (M : rnd c <= rnd q) by (apply rnd_mono; assumption).
  destruct (RN q) as [r|s|] eqn:E.
  - left. exists r. split; [reflexivity |]. rewrite (RN_Fin_inv _ _ E). assumption.
  - right. apply RN_Inf_inv in E. destruct E as [_ ->]. f_equal.
    apply Qltb_ge. lra.
  - exfalso. exact (RN_not_NaN _ E).
Qed.

(** Rounding a value at most [c <= 0] gives a float at most [rnd c]. *)
Lemma RN_le q c :
  q <= c -> rnd c <= 0 ->
  (exists r, RN q = Fin r /\ r <= rnd c) \/ RN q = Inf true.
Proof.
  intros H Hc. assert (M : rnd q <= rnd c) by (apply rnd_mono; assumption).
  destruct (RN q) as [r|s|] eqn:E.
  - left. exists r. split; [reflexivity |]. rewrite (RN_Fin_inv _ _ E). assumption.
  - right. apply RN_Inf_inv in E. destruct E as [E ->]. f_equal.
    apply Qltb_lt. pose proof pow2_1024_pos.
    revert E. apply Qabs_case; intros; lra.
  - exfalso. exact (RN_not_NaN _ E).
Qed.

End FloatFacts.

(** Case analysis over a range of integers. *)
Lemma Zrange_forall (P : Z -> Prop) (lo : Z) (n : nat) :
  Forall P (List.map (fun i => (lo + Z.of_nat i)%Z) (seq 0 n)) ->
  forall k, (lo <= k < lo + Z.of_nat n)%Z -> P k.
Proof.
  intros H k Hk. rewrite Forall_forall in H. apply H.
  apply in_map_iff. exists (Z.to_nat (k - lo)). split; [lia |].
  apply in_seq. lia.
Qed.

(* ================================================================== *)
(** * scoring.py: the components of the score *)

Section ScoringFacts.
Open Scope Q_scope.

Lemma lit_0 : lit 0 = Fin 0.
Proof. reflexivity. Qed.

Lemma lit_100 : lit 100 = Fin 100.
Proof. vm_compute. reflexivity. Qed.

Lemma rnd_100 : rnd 100 = 100.
Proof. vm_compute. reflexivity. Qed.

Lemma rnd_25 : rnd 25 = 25.
Proof. vm_compute. reflexivity. Qed.

Lemma rnd_4 : rnd 4 = 4.
Proof. vm_compute. reflexivity. Qed.

Lemma max_float_lt : rnd (inject_Z (INT_FLOAT_BOUND - 1)) < pow2 1024.
Proof. vm_compute. reflexivity. Qed.

Lemma float_of_int_inv n x :
  Py.float_of_int n = Ok x -> x = Fin (rnd (inject_Z n)).
Proof.
  unfold Py.float_of_int. destruct (RN (inject_Z n)) as [r|s|] eqn:E; intros H.
  - injection H as <-. f_equal. apply RN_Fin_inv. assumption.
  - discriminate.
  - exfalso. exact (RN_not_NaN _ E).
Qed.

(** Non-negative integers below [INT_FLOAT_BOUND] convert. *)
Lemma float_of_int_Ok n :
  (0 <= n < INT_FLOAT_BOUND)%Z ->
  Py.float_of_int n = Ok (Fin (rnd (inject_Z n))).
Proof.
  intros [H0 H1]. unfold Py.float_of_int, RN.
  assert (L : 0 <= rnd (inject_Z n)).
  { apply rnd_nonneg. replace 0 with (inject_Z 0) by reflexivity. rewrite <- Zle_Qle. assumption. }
  assert (U : rnd (inject_Z n) <= rnd (inject_Z (INT_FLOAT_BOUND - 1))).
  { apply rnd_mono. rewrite <- Zle_Qle. lia. }
  pose proof max_float_lt.
  replace (overflows (rnd (inject_Z n))) with false; [reflexivity |].
  symmetry. apply overflows_false. rewrite Qabs_pos by assumption. lra.
Qed.

(** [min(100.0, age * 4.0)] is exactly [min(100, 4 * age)]. *)
Lemma age_component_exact age x :
  (0 <= age)%Z ->
  Py.int_mul_float age AGE_SCORE_PER_MONTH = Ok x ->
  Py.min (lit 100) x = lit (Qmin 100 (inject_Z age * 4)).
Proof.
  intros H0. destruct (Z_lt_le_dec age 25) as [Hs|Hb].
  - revert x. pattern age. apply (Zrange_forall _ 0 25); [| lia].
    cbv [List.map seq]. repeat (constructor; [intros x Hx; vm_compute in Hx; injection Hx as <-; vm_compute; reflexivity |]).
    constructor.
  - unfold Py.int_mul_float. destruct (Py.float_of_int age) as [a|e] eqn:E; [| discriminate].
    cbn [bind]. intros H. apply Ok_inj in H. subst x.
    apply float_of_int_inv in E. subst a.
    assert (R : lit (Qmin 100 (inject_Z age * 4)) = Fin 100).
    { rewrite <- lit_100. unfold lit. apply RN_comp. apply Q.min_l.
      assert (inject_Z 25 <= inject_Z age) by (rewrite <- Zle_Qle; assumption).
      change (inject_Z 25) with 25 in H. lra. }
    rewrite R, lit_100.
    assert (G : 25 <= rnd (inject_Z age)).
    { rewrite <- rnd_25. apply rnd_mono. change 25 with (inject_Z 25). rewrite <- Zle_Qle. assumption. }
    change AGE_SCORE_PER_MONTH with (RN 4). rewrite (RN_Fin 4) by (vm_compute; split; discriminate).
    rewrite rnd_4. cbn [fmul].
    destruct (RN_ge (rnd (inject_Z age) * 4) 100) as [[r [Er Hr]]|Er]; try rewrite rnd_100; try lra.
    + rewrite Er. unfold Py.min. cbn [flt].
      assert (F : Qltb r 100 = false) by (apply Qltb_ge; assumption).
      rewrite F. reflexivity.
    + rewrite Er. reflexivity.
Qed.

(** [max(0.0, 100.0 - count * 25.0)] is exactly [max(0, 100 - 25 * count)]. *)
Lemma risk_component_exact count x :
  (0 <= count)%Z ->
  Py.int_mul_float count PENALTY_PER_FLAG = Ok x ->
  Py.max (lit 0) (fsub (lit 100) x) = lit (Qmax 0 (100 - inject_Z count * 25)).
Proof.
  intros H0. destruct (Z_lt_le_dec count 4) as [Hs|Hb].
  - revert x. pattern count. apply (Zrange_forall _ 0 4); [| lia].
    cbv [List.map seq]. repeat (constructor; [intros x Hx; vm_compute in Hx; injection Hx as <-; vm_compute; reflexivity |]).
    constructor.
  - unfold Py.int_mul_float. destruct (Py.float_of_int count) as [a|e] eqn:E; [| discriminate].
    cbn [bind]. intros H. apply Ok_inj in H. subst x.
    apply float_of_int_inv in E. subst a.
    assert (R : lit (Qmax 0 (100 - inject_Z count * 25)) = Fin 0).
    { rewrite <- lit_0. unfold lit. apply RN_comp. apply Q.max_l.
      assert (inject_Z 4 <= inject_Z count) by (rewrite <- Zle_Qle; assumption).
      change (inject_Z 4) with 4 in H. lra. }
    rewrite R, lit_0, lit_100.
    assert (G : 4 <= rnd (inject_Z count)).
    { rewrite <- rnd_4. apply rnd_mono. change 4 with (inject_Z 4). rewrite <- Zle_Qle. assumption. }
    change PENALTY_PER_FLAG with (RN 25). rewrite (RN_Fin 25) by (vm_compute; split; discriminate).
    rewrite rnd_25. cbn [fmul].
    destruct (RN_ge (rnd (inject_Z count) * 25) 100) as [[r [Er Hr]]|Er]; try rewrite rnd_100; try lra.
    + rewrite Er. unfold fsub. cbn [fneg fadd].
      rewrite rnd_100 in Hr.
      destruct (RN_le (100 + - r) 0) as [[t [Et Ht]]|Et]; try rewrite rnd_0; try lra.
      * rewrite Et. unfold Py.max, fgt. cbn [flt]. rewrite rnd_0 in Ht.
        assert (F : Qltb 0 t = false) by (apply Qltb_ge; assumption).
        rewrite F. reflexivity.
      * rewrite Et. reflexivity.
    + rewrite Er. reflexivity.
Qed.

End ScoringFacts.

Section ScoreFacts.
Open Scope Q_scope.

Lemma fle_range a :
  fle (lit 0) a = true -> fle a (lit 100) = true ->
  exists q, a = Fin q /\ 0 <= q <= 100.
Proof.
  rewrite lit_0, lit_100. destruct a as [q|s|]; cbn [fle]; intros H1 H2.
  - exists q. split; [reflexivity |]. split; apply Qle_bool_iff; assumption.
  - destruct s; discriminate.
  - discriminate.
Qed.

Lemma pow2_1023_big : 100 <= pow2 1023.
Proof. vm_compute. discriminate. Qed.

(** A product with a positive constant, within range. *)
Lemma fmul_const_range w a hi :
  0 < w -> w <= 1 -> 0 <= a <= hi -> hi <= 100 ->
  fmul (Fin w) (Fin a) = Fin (rnd (w * a)) /\ 0 <= rnd (w * a) <= rnd (w * hi).
Proof.
  intros Hw Hw1 [Ha0 Ha1] Hhi. cbn [fmul]. pose proof pow2_1023_big.
  assert (P0 : 0 <= w * a) by (apply Qmult_le_0_compat; lra).
  assert (P1 : w * a <= w * hi) by (apply Qmult_le_l; assumption).
  assert (P2 : w * hi <= 1 * hi) by (apply Qmult_le_compat_r; lra).
  destruct (RN_between (w * a) 0 (w * hi)) as [E [L U]]; try lra.
  rewrite rnd_0 in L. split; [assumption | split; assumption].
Qed.

Lemma fadd_range x y hx hy :
  0 <= x <= hx -> 0 <= y <= hy -> hx + hy <= 100 ->
  fadd (Fin x) (Fin y) = Fin (rnd (x + y)) /\ 0 <= rnd (x + y) <= rnd (hx + hy).
Proof.
  intros Hx Hy Hh. cbn [fadd]. pose proof pow2_1023_big.
  destruct (RN_between (x + y) 0 (hx + hy)) as [E [L U]]; try lra.
  rewrite rnd_0 in L. split; [assumption | split; assumption].
Qed.

Lemma lit_component q :
  0 <= q <= 100 -> lit q = Fin (rnd q) /\ 0 <= rnd q <= 100.
Proof.
  intros Hq. unfold lit. pose proof pow2_1023_big.
  destruct (RN_between q 0 100) as [E [L U]]; try lra.
  rewrite rnd_0 in L. rewrite rnd_100 in U. split; [assumption | split; assumption].
Qed.

Lemma age_value_range age : (0 <= age)%Z -> 0 <= Qmin 100 (inject_Z age * 4) <= 100.
Proof.
  intros H. assert (0 <= inject_Z age) by (change 0 with (inject_Z 0); rewrite <- Zle_Qle; assumption).
  split; [apply Q.min_glb; lra | apply Q.le_min_l].
Qed.

Lemma risk_value_range count : 0 <= Qmax 0 (100 - inject_Z count * 25) <= 100 \/ (count < 0)%Z.
Proof.
  destruct (Z_lt_le_dec count 0) as [|H]; [right; assumption | left].
  assert (0 <= inject_Z count) by (change 0 with (inject_Z 0); rewrite <- Zle_Qle; assumption).
  split; [apply Q.le_max_l | apply Q.max_lub; lra].
Qed.

Lemma weight_age_val : lit (30 # 100) = Fin (rnd (30 # 100)).
Proof. vm_compute. reflexivity. Qed.
Lemma weight_activity_val : lit (50 # 100) = Fin (1 # 2).
Proof. vm_compute. reflexivity. Qed.
Lemma weight_risk_val : lit (20 # 100) = Fin (rnd (20 # 100)).
Proof. vm_compute. reflexivity. Qed.

Lemma weight_age_facts :
  0 < rnd (30 # 100) /\ rnd (30 # 100) <= 1 /\ rnd (rnd (30 # 100) * 100) = 30.
Proof. vm_compute. repeat split; discriminate. Qed.
Lemma weight_activity_facts : rnd ((1 # 2) * 100) = 50.
Proof. vm_compute. reflexivity. Qed.
Lemma weight_risk_facts :
  0 < rnd (20 # 100) /\ rnd (20 # 100) <= 1 /\ rnd (rnd (20 # 100) * 100) = 20.
Proof. vm_compute. repeat split; discriminate. Qed.
Lemma rnd_80 : rnd (30 + 50) = 80.
Proof. vm_compute. reflexivity. Qed.
Lemma rnd_sum_100 : rnd (80 + 20) = 100.
Proof. vm_compute. reflexivity. Qed.

(** The weighted sum of in-range components is a float in [0, 100]. *)
Lemma weighted_sum_range age a count :
  (0 <= age)%Z -> (0 <= count)%Z ->
  fle (lit 0) a = true -> fle a (lit 100) = true ->
  exists s, weighted_sum age a count = Fin s /\ 0 <= s <= 100.
Proof.
  intros Hage Hcount Ha0 Ha1. destruct (fle_range a Ha0 Ha1) as [q [-> Hq]].
  unfold weighted_sum.
  destruct (lit_component _ (age_value_range age Hage)) as [-> HA].
  destruct (risk_value_range count) as [HR|]; [| lia].
  destruct (lit_component _ HR) as [-> HR'].
  rewrite weight_age_val, weight_activity_val, weight_risk_val.
  destruct weight_age_facts as [wa0 [wa1 wa100]].
  destruct weight_risk_facts as [wr0 [wr1 wr100]].
  destruct (fmul_const_range _ _ 100 wa0 wa1 HA) as [-> B1]; [lra |].
  destruct (fmul_const_range (1 # 2) q 100) as [-> B2]; try lra.
  destruct (fmul_const_range _ _ 100 wr0 wr1 HR') as [-> B3]; [lra |].
  rewrite wa100 in B1. rewrite weight_activity_facts in B2. rewrite wr100 in B3.
  destruct (fadd_range _ _ 30 50 B1 B2) as [-> B4]; [lra |].
  rewrite rnd_80 in B4.
  destruct (fadd_range _ _ 80 20 B4 B3) as [-> B5]; [lra |].
  rewrite rnd_sum_100 in B5.
  eexists. split; [reflexivity | assumption].
Qed.

Lemma round_range s :
  0 <= s <= 100 -> (0 <= rhe s <= 100)%Z.
Proof.
  intros [H0 H1]. split.
  - rewrite <- (rhe_Z 0). apply rhe_mono. assumption.
  - rewrite <- (rhe_Z 100). apply rhe_mono. assumption.
Qed.

(** What [score_float] computes, when the two conversions succeed. *)
Lemma score_float_shape m sf :
  score_float m = Ok sf ->
  exists x p,
    Py.int_mul_float (wallet_age_months m) AGE_SCORE_PER_MONTH = Ok x /\
    Py.int_mul_float (suspicious_behavior_count m) PENALTY_PER_FLAG = Ok p /\
    sf = fadd (fadd (fmul WEIGHT_AGE (Py.min (lit 100) x))
                    (fmul WEIGHT_ACTIVITY (activity_score m)))
              (fmul WEIGHT_RISK (Py.max (lit 0) (fsub (lit 100) p))).
Proof.
  unfold score_float.
  destruct (Py.int_mul_float (wallet_age_months m) _) as [x|] eqn:E1; [| discriminate].
  destruct (Py.int_mul_float (suspicious_behavior_count m) _) as [p|] eqn:E2; [| discriminate].
  cbn [bind]. intros H. apply Ok_inj in H. subst sf. exists x, p.
  repeat split; reflexivity.
Qed.

Lemma score_float_value m sf :
  (0 <= wallet_age_months m)%Z -> (0 <= suspicious_behavior_count m)%Z ->
  score_float m = Ok sf ->
  sf = weighted_sum (wallet_age_months m) (activity_score m)
         (suspicious_behavior_count m).
Proof.
  intros Hage Hcount H. destruct (score_float_shape m sf H) as [x [p [E1 [E2 ->]]]].
  rewrite (age_component_exact _ _ Hage E1), (risk_component_exact _ _ Hcount E2).
  reflexivity.
Qed.

Lemma int_mul_float_Ok n c :
  (0 <= n < INT_FLOAT_BOUND)%Z -> exists x, Py.int_mul_float n c = Ok x.
Proof.
  intros H. unfold Py.int_mul_float. rewrite (float_of_int_Ok n H). cbn [bind]. eauto.
Qed.

Lemma score_float_Ok m :
  (0 <= wallet_age_months m < INT_FLOAT_BOUND)%Z ->
  (0 <= suspicious_behavior_count m < INT_FLOAT_BOUND)%Z ->
  score_float m = Ok (weighted_sum (wallet_age_months m) (activity_score m)
                        (suspicious_behavior_count m)).
Proof.
  intros Hage Hcount.
  destruct (int_mul_float_Ok _ AGE_SCORE_PER_MONTH Hage) as [x Ex].
  destruct (int_mul_float_Ok _ PENALTY_PER_FLAG Hcount) as [p Ep].
  assert (E : exists sf, score_float m = Ok sf).
  { unfold score_float. rewrite Ex, Ep. cbn [bind]. eauto. }
  destruct E as [sf E]. rewrite E. f_equal.
  apply score_float_value; [lia | lia | assumption].
Qed.

End ScoreFacts.

(* ================================================================== *)
(** * Claims on scoring.py *)

Section ScoringClaims.
Open Scope Z_scope.

(** C1, as stated, fails: a wallet age of 2^1024 months satisfies every
    range of the claim, and [compute_trust_score] raises [OverflowError]
    on it ([wallet_age_months * 4.0] cannot convert the integer). *)
Lemma compute_trust_score_huge_age :
  (0 <= tx_count huge_age_metrics
   /\ 0 <= wallet_age_months huge_age_metrics
   /\ fle (lit 0) (activity_score huge_age_metrics) = true
   /\ fle (activity_score huge_age_metrics) (lit 100) = true
   /\ 0 <= suspicious_behavior_count huge_age_metrics)
  /\ compute_trust_score huge_age_metrics = Raise OverflowError.
Proof.
  split; [repeat split; vm_compute; congruence | vm_compute; reflexivity].
Qed.

(** C1 (amended): for every WalletMetrics with tx_count >= 0, activity_score
    in [0.0, 100.0], and wallet_age_months and suspicious_behavior_count
    non-negative and below 2^1024 - 2^970 (so that they convert to a float),
    [compute_trust_score] returns the score
    round(0.30*min(100, age*4) + 0.50*activity + 0.20*max(0, 100 - count*25))
    clamped to [0, 100], with the risk level of that clamped score:
    Low from 70, Medium from 40 to 69, High below 40. *)
Theorem compute_trust_score_formula (m : WalletMetrics) :
  0 <= tx_count m ->
  0 <= wallet_age_months m < INT_FLOAT_BOUND ->
  fle (lit 0) (activity_score m) = true ->
  fle (activity_score m) (lit 100) = true ->
  0 <= suspicious_behavior_count m < INT_FLOAT_BOUND ->
  exists r score level,
    Py.round (weighted_sum (wallet_age_months m) (activity_score m)
                (suspicious_behavior_count m)) = Ok r
    /\ score = Z.max 0 (Z.min 100 r)
    /\ compute_trust_score m = Ok (score, level)
    /\ (70 <= score -> level = Low)
    /\ (40 <= score < 70 -> level = Medium)
    /\ (score < 40 -> level = High).
Proof.
  intros _ Hage Ha0 Ha1 Hcount.
  destruct (weighted_sum_range (wallet_age_months m) (activity_score m)
              (suspicious_behavior_count m)) as [s [Es Hs]]; try lia; try assumption.
  unfold compute_trust_score. rewrite (score_float_Ok m Hage Hcount), Es.
  cbn [bind Py.round]. unfold THRESHOLD_LOW, THRESHOLD_MEDIUM.
  set (score := Z.max 0 (Z.min 100 (rhe s))).
  exists (rhe s), score.
  destruct (score >=? 70) eqn:E1; [| destruct (score >=? 40) eqn:E2];
    eexists; (split; [reflexivity |]); (split; [reflexivity |]);
    (split; [reflexivity |]); repeat split; intros; try reflexivity; lia.
Qed.

Lemma compute_trust_score_formula_witness :
  exists r score level,
    Py.round (weighted_sum 30 (lit 100) 0) = Ok r
    /\ score = Z.max 0 (Z.min 100 r)
    /\ compute_trust_score
         {| tx_count := 100; wallet_age_months := 30;
            activity_score := lit 100; activity_level := high;
            suspicious_behavior_count := 0; risk_flags := [] |}
       = Ok (score, level)
    /\ (70 <= score -> level = Low)
    /\ (40 <= score < 70 -> level = Medium)
    /\ (score < 40 -> level = High).
Proof.
  apply (compute_trust_score_formula
           {| tx_count := 100; wallet_age_months := 30;
              activity_score := lit 100; activity_level := high;
              suspicious_behavior_count := 0; risk_flags := [] |});
    cbn [tx_count wallet_age_months suspicious_behavior_count activity_score];
    try (vm_compute; reflexivity); try (split; vm_compute; congruence);
    vm_compute; congruence.
Defined.

(** The score and level of a finite weighted sum. *)
Lemma compute_trust_score_inv m score level :
  compute_trust_score m = Ok (score, level) ->
  exists s, score_float m = Ok (Fin s) /\ score = Z.max 0 (Z.min 100 (rhe s)).
Proof.
  unfold compute_trust_score.
  destruct (score_float m) as [sf|] eqn:E; [| discriminate].
  cbn [bind]. destruct sf as [s|?|]; cbn [Py.round bind]; try discriminate.
  intros H. injection H as <- _. exists s. auto.
Qed.

(** C7: with activity_score, suspicious_behavior_count and the other fields
    fixed, and ages 0 <= a1 <= a2, the trust score returned for a1 is at
    most the trust score returned for a2. *)
Theorem trust_score_monotone_in_age
  (tx : Z) (act : f64) (lvl : ActivityLevel) (count : Z) (flags : list pystr)
  (a1 a2 s1 s2 : Z) (l1 l2 : RiskLevel) :
  0 <= a1 <= a2 ->
  compute_trust_score
    {| tx_count := tx; wallet_age_months := a1; activity_score := act;
       activity_level := lvl; suspicious_behavior_count := count;
       risk_flags := flags |} = Ok (s1, l1) ->
  compute_trust_score
    {| tx_count := tx; wallet_age_months := a2; activity_score := act;
       activity_level := lvl; suspicious_behavior_count := count;
       risk_flags := flags |} = Ok (s2, l2) ->
  s1 <= s2.
Proof.
  intros Ha H1 H2.
  destruct (compute_trust_score_inv _ _ _ H1) as [v1 [E1 ->]].
  destruct (compute_trust_score_inv _ _ _ H2) as [v2 [E2 ->]].
  destruct (score_float_shape _ _ E1) as [x1 [p1 [X1 [P1 S1]]]].
  destruct (score_float_shape _ _ E2) as [x2 [p2 [X2 [P2 S2]]]].
  cbn [wallet_age_months suspicious_behavior_count activity_score] in *.
  rewrite P1 in P2. injection P2 as <-.
  rewrite (age_component_exact a1 x1) in S1 by (lia || assumption).
  rewrite (age_component_exact a2 x2) in S2 by (lia || assumption).
  destruct (lit_component _ (age_value_range a1 ltac:(lia))) as [A1 B1].
  destruct (lit_component _ (age_value_range a2 ltac:(lia))) as [A2 B2].
  rewrite A1 in S1. rewrite A2 in S2.
  unfold WEIGHT_AGE in S1, S2. rewrite weight_age_val in S1, S2.
  destruct weight_age_facts as [wa0 [wa1 _]].
  destruct (fmul_const_range _ _ 100 wa0 wa1 B1) as [M1 _]; [apply Qle_refl |].
  destruct (fmul_const_range _ _ 100 wa0 wa1 B2) as [M2 _]; [apply Qle_refl |].
  rewrite M1 in S1. rewrite M2 in S2.
  symmetry in S1, S2.
  destruct (fadd_Fin_inv _ _ _ S1) as [u1 [c1 [U1 [C1 V1]]]].
  destruct (fadd_Fin_inv _ _ _ S2) as [u2 [c2 [U2 [C2 V2]]]].
  rewrite C1 in C2. injection C2 as <-.
  destruct (fadd_Fin_inv _ _ _ U1) as [w1 [h1 [W1 [Hh1 Y1]]]].
  destruct (fadd_Fin_inv _ _ _ U2) as [w2 [h2 [W2 [Hh2 Y2]]]].
  rewrite Hh1 in Hh2. injection Hh2 as <-.
  injection W1 as <-. injection W2 as <-.
  assert (Q0 : (Qmin 100 (inject_Z a1 * 4) <= Qmin 100 (inject_Z a2 * 4))%Q).
  { apply Q.min_le_compat_l.
    assert (inject_Z a1 <= inject_Z a2)%Q by (rewrite <- Zle_Qle; lia). lra. }
  assert (Q1 : (rnd (rnd (30 # 100) * rnd (Qmin 100 (inject_Z a1 * 4)))
                <= rnd (rnd (30 # 100) * rnd (Qmin 100 (inject_Z a2 * 4))))%Q).
  { apply rnd_mono. apply Qmult_le_l; [assumption | apply rnd_mono; assumption]. }
  assert (Q2 : (v1 <= v2)%Q).
  { subst v1 v2 u1 u2. apply rnd_mono. apply Qplus_le_l. apply rnd_mono.
    apply Qplus_le_l. assumption. }
  pose proof (rhe_mono _ _ Q2). lia.
Qed.

Lemma trust_score_monotone_in_age_witness : 22 <= 50.
Proof.
  apply (trust_score_monotone_in_age 0 (lit 0) low 0 [] 2 30 22 50 High Medium);
    [lia | vm_compute; reflexivity | vm_compute; reflexivity].
Defined.

(** C8: for every WalletMetrics with wallet_age_months >= 0, activity_score
    in [0.0, 100.0] and suspicious_behavior_count >= 0, the weighted sum
    0.30*min(100, age*4) + 0.50*activity + 0.20*max(0, 100 - count*25) that
    [compute_trust_score] forms rounds to an integer of [0, 100], which the
    final clamp leaves unchanged. *)
Theorem clamp_never_changes_score (m : WalletMetrics) (sf : f64) :
  0 <= wallet_age_months m ->
  fle (lit 0) (activity_score m) = true ->
  fle (activity_score m) (lit 100) = true ->
  0 <= suspicious_behavior_count m ->
  score_float m = Ok sf ->
  sf = weighted_sum (wallet_age_months m) (activity_score m)
         (suspicious_behavior_count m)
  /\ exists r, Py.round sf = Ok r /\ 0 <= r <= 100
               /\ Z.max 0 (Z.min 100 r) = r.
Proof.
  intros Hage Ha0 Ha1 Hcount H.
  pose proof (score_float_value m sf Hage Hcount H) as E. split; [assumption |].
  destruct (weighted_sum_range _ _ _ Hage Hcount Ha0 Ha1) as [s [Es Hs]].
  rewrite E, Es. cbn [Py.round]. exists (rhe s).
  pose proof (round_range s Hs). repeat split; lia.
Qed.

Lemma clamp_never_changes_score_witness :
  exists sf,
    score_float {| tx_count := 3; wallet_age_months := 2;
                   activity_score := lit (122 # 10); activity_level := low;
                   suspicious_behavior_count := 2; risk_flags := [] |} = Ok sf
    /\ exists r, Py.round sf = Ok r /\ 0 <= r <= 100
                 /\ Z.max 0 (Z.min 100 r) = r.
Proof.
  eexists. split; [vm_compute; reflexivity |].
  refine (proj2 (clamp_never_changes_score
           {| tx_count := 3; wallet_age_months := 2;
              activity_score := lit (122 # 10); activity_level := low;
              suspicious_behavior_count := 2; risk_flags := [] |} _ _ _ _ _ _));
    cbn [wallet_age_months suspicious_behavior_count activity_score];
    try (vm_compute; reflexivity); try lia; vm_compute; congruence.
Defined.

End ScoringClaims.

(* ================================================================== *)
(** * Strings, hexadecimal digits and the digest *)

Section StringFacts.

Lemma lstrip_suffix s : exists ws, s = ws ++ lstrip s.
Proof.
  induction s as [|c s [ws IH]]; [exists []; reflexivity |].
  cbn [lstrip]. destruct (is_space c).
  - exists (c :: ws). cbn [app]. f_equal. assumption.
  - exists []. reflexivity.
Qed.

Lemma lstrip_head s c r : lstrip s = c :: r -> is_space c = false.
Proof.
  induction s as [|d s IH]; cbn [lstrip]; [discriminate |].
  destruct (is_space d) eqn:E; [assumption |].
  intros H. injection H as <- _. assumption.
Qed.

Lemma lstrip_fixed s :
  match s with [] => True | c :: _ => is_space c = false end -> lstrip s = s.
Proof.
  destruct s as [|c r]; [reflexivity |]. cbn [lstrip]. intros ->. reflexivity.
Qed.

Lemma lstrip_idem s : lstrip (lstrip s) = lstrip s.
Proof.
  apply lstrip_fixed. destruct (lstrip s) as [|c r] eqn:E; [exact I |].
  exact (lstrip_head _ _ _ E).
Qed.

(** Stripping a stripped string changes nothing. *)
Lemma strip_idem s : strip (strip s) = strip s.
Proof.
  unfold strip, rstrip.
  assert (L : lstrip (rev (lstrip (rev (lstrip s)))) = rev (lstrip (rev (lstrip s)))).
  { apply lstrip_fixed. set (u := lstrip s).
    destruct (lstrip_suffix (rev u)) as [ws E].
    destruct (rev (lstrip (rev u))) as [|c r] eqn:T; [exact I |].
    assert (U : u = (c :: r) ++ rev ws).
    { rewrite <- T, <- rev_app_distr, <- E. symmetry. apply rev_involutive. }
    cbn [app] in U. exact (lstrip_head s c _ U). }
  rewrite L, rev_involutive, lstrip_idem. reflexivity.
Qed.

Lemma hex_value_digit d :
  (0 <= d < 16)%Z -> hex_value (hex_digit d) = Some d.
Proof.
  intros H. pattern d. apply (Zrange_forall _ 0 16); [| lia].
  cbv [List.map seq]. repeat (constructor; [reflexivity |]). constructor.
Qed.

(** [int(h[:8], 16)] on the hexadecimal form of at least four bytes is the
    big-endian value of the first four. *)
Lemma int16_hex8 b0 b1 b2 b3 rest :
  (0 <= b0 < 256)%Z -> (0 <= b1 < 256)%Z -> (0 <= b2 < 256)%Z -> (0 <= b3 < 256)%Z ->
  int16 (firstn 8 (hex_of_bytes (b0 :: b1 :: b2 :: b3 :: rest)))
  = Ok (((b0 * 256 + b1) * 256 + b2) * 256 + b3)%Z.
Proof.
  intros H0 H1 H2 H3. unfold hex_of_bytes. cbn [flat_map app firstn].
  unfold int16. cbn [int16_acc].
  assert (D : forall b, (0 <= b < 256)%Z -> (0 <= b / 16 < 16)%Z /\ (0 <= b mod 16 < 16)%Z
                                           /\ (b = 16 * (b / 16) + b mod 16)%Z).
  { intros b Hb. repeat split; try (apply Z.div_pos; lia);
      try (apply Z.div_lt_upper_bound; lia); try (apply Z.mod_pos_bound; lia).
    apply Z.div_mod. lia. }
  destruct (D b0 H0) as [A0 [B0 E0]]. destruct (D b1 H1) as [A1 [B1 E1]].
  destruct (D b2 H2) as [A2 [B2 E2]]. destruct (D b3 H3) as [A3 [B3 E3]].
  rewrite !hex_value_digit by assumption. f_equal. lia.
Qed.

(** The first eight hexadecimal characters of a SHA-256 digest always read
    as an unsigned 32-bit integer. *)
Lemma hexdigest_prefix msg :
  exists v, int16 (firstn 8 (SHA256.hexdigest msg)) = Ok v /\ (0 <= v < 2 ^ 32)%Z.
Proof.
  unfold SHA256.hexdigest, SHA256.digest.
  generalize (SHA256.final_state msg). intros s.
  cbn [flat_map]. generalize (SHA256.sa s). intros x.
  change (SHA256.be_bytes 4 x)
    with [((x / 256 ^ 3) mod 256)%Z; ((x / 256 ^ 2) mod 256)%Z;
          ((x / 256 ^ 1) mod 256)%Z; ((x / 256 ^ 0) mod 256)%Z].
  cbn [app].
  assert (M : forall y, (0 <= y mod 256 < 256)%Z) by (intros; apply Z.mod_pos_bound; lia).
  rewrite int16_hex8 by apply M.
  eexists. split; [reflexivity |].
  pose proof (M (x / 256 ^ 3)%Z). pose proof (M (x / 256 ^ 2)%Z).
  pose proof (M (x / 256 ^ 1)%Z). pose proof (M (x / 256 ^ 0)%Z). lia.
Qed.

End StringFacts.

(* ================================================================== *)
(** * analyzer.py: risk flags *)

Section RiskFlags.
Open Scope Z_scope.

Lemma risk_flags_distinct :
  RISK_NEW_WALLET <> RISK_LOW_ACTIVITY /\ RISK_NEW_WALLET <> RISK_HIGH_CHURN
  /\ RISK_NEW_WALLET <> RISK_SUSPICIOUS_PATTERNS
  /\ RISK_LOW_ACTIVITY <> RISK_HIGH_CHURN
  /\ RISK_LOW_ACTIVITY <> RISK_SUSPICIOUS_PATTERNS
  /\ RISK_HIGH_CHURN <> RISK_SUSPICIOUS_PATTERNS.
Proof. repeat split; vm_compute; discriminate. Qed.

Lemma In_optional (c : bool) (x y : pystr) :
  In x (if c then [y] else []) <-> c = true /\ y = x.
Proof.
  destruct c; cbn [In]; intuition discriminate.
Qed.

(** The flags are the four optional flags, in the order of the checks. *)
Lemma compute_risk_flags_eq tx age a :
  _compute_risk_flags tx age a =
  (if age <? 3 then [RISK_NEW_WALLET] else [])
  ++ (if tx <? 5 then [RISK_LOW_ACTIVITY] else [])
  ++ (if fge a (lit 80) && (age <? 6) then [RISK_HIGH_CHURN] else [])
  ++ (if (tx >? 0) && (tx mod 17 =? 0) && (age <? 12)
      then [RISK_SUSPICIOUS_PATTERNS] else []).
Proof.
  unfold _compute_risk_flags.
  destruct (age <? 3), (tx <? 5), (fge a (lit 80) && (age <? 6))%bool,
    ((tx >? 0) && (tx mod 17 =? 0) && (age <? 12))%bool; reflexivity.
Qed.

Lemma compute_risk_flags_NoDup tx age a : NoDup (_compute_risk_flags tx age a).
Proof.
  rewrite compute_risk_flags_eq.
  destruct risk_flags_distinct as [D1 [D2 [D3 [D4 [D5 D6]]]]].
  destruct (age <? 3), (tx <? 5), (fge a (lit 80) && (age <? 6))%bool,
    ((tx >? 0) && (tx mod 17 =? 0) && (age <? 12))%bool; cbn [app];
    repeat (constructor; [cbn [In]; intuition congruence |]); constructor.
Qed.

Lemma compute_risk_flags_length tx age a :
  (List.length (_compute_risk_flags tx age a) <= 4)%nat.
Proof.
  rewrite compute_risk_flags_eq.
  destruct (age <? 3), (tx <? 5), (fge a (lit 80) && (age <? 6))%bool,
    ((tx >? 0) && (tx mod 17 =? 0) && (age <? 12))%bool; cbn; lia.
Qed.

(** Each flag is present exactly when its own check holds. *)
Lemma risk_flags_membership tx age a :
  (In RISK_NEW_WALLET (_compute_risk_flags tx age a) <-> age < 3)
  /\ (In RISK_LOW_ACTIVITY (_compute_risk_flags tx age a) <-> tx < 5)
  /\ (In RISK_HIGH_CHURN (_compute_risk_flags tx age a)
      <-> fge a (lit 80) = true /\ age < 6)
  /\ (In RISK_SUSPICIOUS_PATTERNS (_compute_risk_flags tx age a)
      <-> 0 < tx /\ tx mod 17 = 0 /\ age < 12).
Proof.
  rewrite compute_risk_flags_eq.
  destruct risk_flags_distinct as [D1 [D2 [D3 [D4 [D5 D6]]]]].
  rewrite !in_app_iff, !In_optional, !andb_true_iff.
  rewrite !Z.ltb_lt, Z.gtb_ltb, Z.ltb_lt, Z.eqb_eq.
  repeat split; intros; intuition congruence.
Qed.

(** C4: for every tx_count, wallet_age_months and activity_score, the flags
    are exactly, and in this order: 'new_wallet' iff age < 3; 'low_activity'
    iff tx_count < 5; 'high_churn' iff activity_score >= 80.0 and age < 6;
    'suspicious_patterns' iff tx_count > 0, tx_count mod 17 = 0 and
    age < 12; each flag depends on its own check only. *)
Theorem compute_risk_flags_rules (tx age : Z) (a : f64) :
  _compute_risk_flags tx age a =
    (if age <? 3 then [RISK_NEW_WALLET] else [])
    ++ (if tx <? 5 then [RISK_LOW_ACTIVITY] else [])
    ++ (if fge a (lit 80) && (age <? 6) then [RISK_HIGH_CHURN] else [])
    ++ (if (tx >? 0) && (tx mod 17 =? 0) && (age <? 12)
        then [RISK_SUSPICIOUS_PATTERNS] else [])
  /\ (In RISK_NEW_WALLET (_compute_risk_flags tx age a) <-> age < 3)
  /\ (In RISK_LOW_ACTIVITY (_compute_risk_flags tx age a) <-> tx < 5)
  /\ (In RISK_HIGH_CHURN (_compute_risk_flags tx age a)
      <-> fge a (lit 80) = true /\ age < 6)
  /\ (In RISK_SUSPICIOUS_PATTERNS (_compute_risk_flags tx age a)
      <-> 0 < tx /\ tx mod 17 = 0 /\ age < 12).
Proof.
  split; [apply compute_risk_flags_eq | apply risk_flags_membership].
Qed.

End RiskFlags.

(* ================================================================== *)
(** * analyzer.py: the metrics of a wallet *)

Section AnalyzerFacts.
Open Scope Z_scope.

Variable fpow : f64 -> f64 -> f64.
Variable now : Z.
Variable Pubkey : Type.
Variable Pubkey_from_string : pystr -> option Pubkey.
Variable get_signatures_for_address :
  Pubkey -> Z -> result (option (list RpcItem)).

Let fetch (wallet : pystr) : result (list TxSignatureInfo) :=
  get_recent_transactions Pubkey Pubkey_from_string
    get_signatures_for_address wallet MAX_SIGNATURES_LIMIT.
Let analyze : pystr -> result WalletMetrics :=
  analyze_wallet fpow now Pubkey Pubkey_from_string get_signatures_for_address.

(** The ratio of a count below the cap is a finite float. *)
Lemma ratio_Ok n :
  0 < n < 100 ->
  Py.int_truediv n TX_COUNT_FOR_FULL_ACTIVITY
  = Ok (Fin (rnd (inject_Z n / 100))).
Proof.
  intros H. unfold Py.int_truediv, TX_COUNT_FOR_FULL_ACTIVITY. cbn [Z.eqb].
  change (inject_Z 100) with 100%Q.
  assert (0 <= inject_Z n <= 100)%Q.
  { change 0%Q with (inject_Z 0). change 100%Q with (inject_Z 100).
    rewrite <- !Zle_Qle. lia. }
  pose proof pow2_1023_big.
  rewrite RN_Fin; [reflexivity |].
  assert (E : (inject_Z n / 100 == inject_Z n * (1 # 100))%Q) by (field).
  rewrite E. split; lra.
Qed.

(** The activity score never raises. *)
Lemma activity_score_total n : exists a, _tx_count_to_activity_score fpow n = Ok a.
Proof.
  unfold _tx_count_to_activity_score.
  destruct (n <=? 0) eqn:E0; [eauto |].
  destruct (n >=? TX_COUNT_FOR_FULL_ACTIVITY) eqn:E1; [eauto |].
  unfold TX_COUNT_FOR_FULL_ACTIVITY in E1.
  rewrite ratio_Ok by lia. cbn [bind]. eauto.
Qed.

Lemma oldest_block_time_None txs :
  (forall i, In i txs -> block_time i = None) -> _oldest_block_time txs = None.
Proof.
  intros H. unfold _oldest_block_time.
  assert (E : flat_map (fun i => match block_time i with
                                 | Some t => [t]
                                 | None => []
                                 end) txs = []).
  { induction txs as [|i txs IH]; [reflexivity |]. cbn [flat_map].
    rewrite (H i (or_introl eq_refl)). cbn [app]. apply IH.
    intros j Hj. apply H. right. assumption. }
  rewrite E. reflexivity.
Qed.

(** What [analyze_wallet] returns, when it returns. *)
Lemma analyze_wallet_inv wallet m :
  analyze wallet = Ok m ->
  exists txs age a,
    fetch (strip wallet) = Ok txs
    /\ match _oldest_block_time txs with
       | Some t => _wallet_age_months now (Some t)
       | None => _mock_wallet_age_months (strip wallet)
       end = Ok age
    /\ _tx_count_to_activity_score fpow (Z.of_nat (List.length txs)) = Ok a
    /\ m = {| tx_count := Z.of_nat (List.length txs);
              wallet_age_months := age;
              activity_score := a;
              activity_level := _activity_score_to_level a;
              suspicious_behavior_count :=
                Z.of_nat (List.length
                  (_compute_risk_flags (Z.of_nat (List.length txs)) age a));
              risk_flags :=
                _compute_risk_flags (Z.of_nat (List.length txs)) age a |}.
Proof.
  unfold analyze, analyze_wallet, fetch.
  destruct (get_recent_transactions _ _ _ _ _) as [txs|] eqn:F; [| discriminate].
  cbn [bind].
  destruct (_oldest_block_time txs) as [t|] eqn:O.
  - destruct (_wallet_age_months now (Some t)) as [age|] eqn:A; [| discriminate].
    cbn [bind].
    destruct (_tx_count_to_activity_score fpow _) as [a|] eqn:S; [| discriminate].
    cbn [bind]. intros H. injection H as <-. exists txs, age, a.
    rewrite O. repeat split; assumption.
  - destruct (_mock_wallet_age_months (strip wallet)) as [age|] eqn:A; [| discriminate].
    cbn [bind].
    destruct (_tx_count_to_activity_score fpow _) as [a|] eqn:S; [| discriminate].
    cbn [bind]. intros H. injection H as <-. exists txs, age, a.
    rewrite O. repeat split; assumption.
Qed.

(** C6: every WalletMetrics the analyzer produces has
    suspicious_behavior_count == len(risk_flags), and its risk_flags hold
    no flag twice. *)
Theorem analyze_wallet_flag_count (wallet : pystr) (m : WalletMetrics) :
  analyze wallet = Ok m ->
  suspicious_behavior_count m = Z.of_nat (List.length (risk_flags m))
  /\ NoDup (risk_flags m).
Proof.
  intros H. destruct (analyze_wallet_inv wallet m H) as [txs [age [a [_ [_ [_ ->]]]]]].
  cbn [suspicious_behavior_count risk_flags]. split; [reflexivity |].
  apply compute_risk_flags_NoDup.
Qed.

(** C10: two address strings that are equal once their leading and trailing
    whitespace is removed give, with the same ledger and the same clock
    reading, the same outcome of [analyze_wallet]: the same WalletMetrics in
    every field, or the same exception. *)
Theorem analyze_wallet_strip (w1 w2 : pystr) :
  strip w1 = strip w2 -> analyze w1 = analyze w2.
Proof.
  intros H. unfold analyze, analyze_wallet. rewrite H. reflexivity.
Qed.

(** C5: when the fetch succeeds and no record carries a timestamp (the
    zero-record case included), wallet_age_months is the first 8 hex
    characters of the SHA-256 digest of the UTF-8 bytes of the trimmed
    address, read as an unsigned integer, modulo 25; it is therefore a
    function of the address alone, and lies in [0, 24]. *)
Theorem mock_wallet_age (wallet : pystr) (txs : list TxSignatureInfo) (b : bytes) :
  fetch (strip wallet) = Ok txs ->
  (forall i, In i txs -> block_time i = None) ->
  encode_utf8 (strip wallet) = Ok b ->
  exists v m,
    int16 (firstn 8 (SHA256.hexdigest b)) = Ok v
    /\ analyze wallet = Ok m
    /\ wallet_age_months m = v mod 25
    /\ 0 <= wallet_age_months m <= 24.
Proof.
  intros F N E. destruct (hexdigest_prefix b) as [v [Hv _]].
  destruct (activity_score_total (Z.of_nat (List.length txs))) as [a Ha].
  exists v. eexists. split; [assumption |].
  unfold analyze, analyze_wallet. fold (fetch (strip wallet)). rewrite F. cbn [bind].
  rewrite (oldest_block_time_None txs N).
  unfold _mock_wallet_age_months. rewrite strip_idem, E. cbn [bind].
  rewrite Hv. cbn [bind]. rewrite Ha. cbn [bind].
  split; [reflexivity |]. cbn [wallet_age_months]. unfold MOCK_AGE_CAP_MONTHS.
  split; [reflexivity |].
  pose proof (Z.mod_pos_bound v 25 ltac:(lia)). change (24 + 1) with 25. lia.
Qed.

End AnalyzerFacts.

(* ================================================================== *)
(** * analyzer.py: the activity curve *)

Section ActivityCurve.
Import Curve CurveCheck.
Open Scope Q_scope.

Lemma Qmul_lt_compat a b c d : 0 <= a -> a < b -> 0 <= c -> c < d -> a * c < b * d.
Proof.
  intros Ha Hab Hc Hcd.
  apply Qle_lt_trans with (b * c).
  - apply Qmult_le_compat_r; lra.
  - apply Qmult_lt_l; lra.
Qed.

Lemma Qmul_nonneg a b : 0 <= a -> 0 <= b -> 0 <= a * b.
Proof. apply Qmult_le_0_compat. Qed.

Lemma pow5_lt a b : 0 <= a -> a < b -> pow5 a < pow5 b.
Proof.
  intros Ha Hab. unfold pow5.
  repeat (apply Qmul_lt_compat; try assumption; repeat apply Qmul_nonneg; try assumption).
Qed.

(** A number whose fifth power is at least that of [a >= 0] is at least [a]. *)
Lemma pow5_le_inv a b : 0 <= b -> pow5 a <= pow5 b -> a <= b.
Proof.
  intros Hb H. apply Qnot_lt_le. intro C. pose proof (pow5_lt b a Hb C). lra.
Qed.

Lemma clamp100_mono x y : x <= y -> clamp100 x <= clamp100 y.
Proof.
  intros H. unfold clamp100.
  destruct (Qltb x 100) eqn:Ex, (Qltb y 100) eqn:Ey;
    try apply Qltb_lt in Ex; try apply Qltb_lt in Ey;
    try apply Qltb_ge in Ex; try apply Qltb_ge in Ey; lra.
Qed.

Lemma tenths_of_mono x y : x <= y -> (tenths_of x <= tenths_of y)%Z.
Proof.
  intros H. unfold tenths_of. apply rhe_mono.
  apply Qmult_le_compat_r; [| discriminate].
  apply clamp100_mono, rnd_mono. lra.
Qed.

Lemma curve_facts_all n : (1 <= n <= 99)%Z -> curve_facts n.
Proof.
  intros H. apply (Zrange_forall curve_facts 1 99); [| lia].
  cbv [List.map seq].
  repeat (constructor;
          [refine (conj _ (conj _ (conj _ (conj (conj _ _) (conj _ (conj _
                    (conj (conj _ _) _)))))));
           vm_compute; first [reflexivity | discriminate] |]).
  constructor.
Qed.

End ActivityCurve.

Section ActivityCurve2.
Import Curve CurveCheck.
Open Scope Q_scope.

(** The tenths of the exact curve are the nearest to it, and below 1000. *)
Lemma curve_tenths_nearest n :
  (1 <= n <= 99)%Z -> is_curve_tenths n (curve_tenths n) /\ (curve_tenths n < 1000)%Z.
Proof.
  intros H. destruct (curve_facts_all n H) as [_ [_ [_ [_ [_ [_ [C1 C2]]]]]]]. auto.
Qed.

(** A [pow] result enclosed by two rationals that give the same tenths
    gives those tenths. *)
Lemma activity_score_between fpow n lo hi t :
  (1 <= n <= 99)%Z ->
  0 < lo -> pow5 lo <= cube_ratio n * (1 - pow2 (-40)) ->
  cube_ratio n * (1 + pow2 (-40)) <= pow5 hi -> 0 < hi <= 1 ->
  tenths_of lo = t -> tenths_of hi = t ->
  pow_ok fpow n = true ->
  _tx_count_to_activity_score fpow n = Ok (lit (inject_Z t / 10)).
Proof.
  intros Hn L0 L1 U1 U2 T1 T2 P.
  unfold pow_ok in P. rewrite ratio_Ok in P by lia.
  unfold _tx_count_to_activity_score.
  replace (n <=? 0)%Z with false by (symmetry; apply Z.leb_gt; lia).
  replace (n >=? TX_COUNT_FOR_FULL_ACTIVITY)%Z with false
    by (symmetry; unfold TX_COUNT_FOR_FULL_ACTIVITY; rewrite Z.geb_leb; apply Z.leb_gt; lia).
  rewrite ratio_Ok by lia. cbn [bind].
  destruct (fpow (Fin (rnd (inject_Z n / 100))) (lit (6 # 10))) as [p| |]; try discriminate.
  unfold cube_ratio in L1, U1. rewrite !andb_true_iff in P. destruct P as [[P0 P1] P2].
  apply Qltb_lt in P0. apply Qle_bool_iff in P1, P2.
  assert (Lp : lo <= p).
  { apply pow5_le_inv; [lra | exact (Qle_trans _ _ _ L1 P1)]. }
  assert (Up : p <= hi).
  { apply pow5_le_inv; [lra | exact (Qle_trans _ _ _ P2 U1)]. }
  rewrite lit_100. cbn [fmul]. pose proof pow2_1023_big.
  destruct (RN_between (100 * p) (100 * lo) (100 * hi)) as [E _]; try lra.
  rewrite E. unfold Py.min. cbn [flt].
  assert (M : (if Qltb (rnd (100 * p)) 100 then Fin (rnd (100 * p)) else Fin 100)
              = Fin (clamp100 (rnd (100 * p)))).
  { unfold clamp100. destruct (Qltb _ _); reflexivity. }
  rewrite M. cbn [Py.round1]. fold (tenths_of p).
  assert (T : tenths_of p = t).
  { pose proof (tenths_of_mono _ _ Lp). pose proof (tenths_of_mono _ _ Up). lia. }
  rewrite T. reflexivity.
Qed.

(** With an accurate [pow], the activity score of a count in [1, 99] is the
    float of the exact curve rounded to one decimal. *)
Lemma activity_score_exact fpow n :
  (1 <= n <= 99)%Z -> pow_ok fpow n = true ->
  _tx_count_to_activity_score fpow n
  = Ok (lit (inject_Z (curve_tenths n) / 10)).
Proof.
  intros Hn P.
  destruct (curve_facts_all n Hn) as [L0 [L1 [U1 [U2 [T1 [T2 _]]]]]].
  exact (activity_score_between fpow n _ _ _ Hn L0 L1 U1 U2 T1 T2 P).
Qed.

(** The reference [pow] is accurate. *)
Lemma pow_ref_check :
  forallb (pow_ok pow_ref) (List.map (fun i => (1 + Z.of_nat i)%Z) (seq 0 99)) = true.
Proof. vm_compute. reflexivity. Qed.

Lemma pow_ref_accurate : pow_accurate pow_ref.
Proof.
  intros n Hn. apply (Zrange_forall (fun k => pow_ok pow_ref k = true) 1 99); [| lia].
  apply Forall_forall. exact (proj1 (forallb_forall _ _) pow_ref_check).
Qed.

End ActivityCurve2.

(* ================================================================== *)
(** * Claims on the activity score *)

Section ActivityClaims.
Import Curve.
Open Scope Z_scope.

Lemma activity_score_low fpow n :
  n <= 0 -> _tx_count_to_activity_score fpow n = Ok (lit 0).
Proof.
  intros H. unfold _tx_count_to_activity_score.
  replace (n <=? 0) with true by (symmetry; apply Z.leb_le; assumption).
  reflexivity.
Qed.

Lemma activity_score_full fpow n :
  100 <= n -> _tx_count_to_activity_score fpow n = Ok (lit 100).
Proof.
  intros H. unfold _tx_count_to_activity_score, TX_COUNT_FOR_FULL_ACTIVITY.
  replace (n <=? 0) with false by (symmetry; apply Z.leb_gt; lia).
  replace (n >=? 100) with true by (symmetry; rewrite Z.geb_leb; apply Z.leb_le; assumption).
  reflexivity.
Qed.

(** C2: for every integer tx_count the activity score is 0.0 when
    tx_count <= 0, 100.0 when tx_count >= 100, and otherwise the float of
    t/10, where t tenths is 100 * (tx_count/100)^0.6 rounded to one decimal
    place (t - 1/2 < 10 * 100 * (tx_count/100)^(3/5) < t + 1/2) and clamped
    to at most 100.0; the C library's pow is assumed accurate
    ([pow_accurate]). *)
Theorem activity_score_mapping (fpow : f64 -> f64 -> f64) (tx_count : Z) :
  pow_accurate fpow ->
  (tx_count <= 0 -> _tx_count_to_activity_score fpow tx_count = Ok (lit 0))
  /\ (100 <= tx_count
      -> _tx_count_to_activity_score fpow tx_count = Ok (lit 100))
  /\ (0 < tx_count < 100
      -> exists t,
           is_curve_tenths tx_count t
           /\ _tx_count_to_activity_score fpow tx_count
              = Ok (lit (inject_Z (Z.min t 1000) / 10))).
Proof.
  intros A. split; [apply activity_score_low |].
  split; [apply activity_score_full |].
  intros H. assert (Hn : 1 <= tx_count <= 99) by lia.
  destruct (curve_tenths_nearest tx_count Hn) as [C1 C2].
  exists (curve_tenths tx_count). split; [assumption |].
  rewrite Z.min_l by lia. apply activity_score_exact; [assumption | apply A; assumption].
Qed.

Lemma activity_score_mapping_witness :
  pow_accurate pow_ref
  /\ (0 < 17 < 100
      -> exists t,
           is_curve_tenths 17 t
           /\ _tx_count_to_activity_score pow_ref 17
              = Ok (lit (inject_Z (Z.min t 1000) / 10))).
Proof.
  split; [exact pow_ref_accurate |].
  exact (proj2 (proj2 (activity_score_mapping pow_ref 17 pow_ref_accurate))).
Defined.

(** C3, as stated, fails at tx_count = 50: whatever accurate pow the
    platform has, the activity score is not 65.3; and an accurate pow
    exists, with which the score is 66.0. *)
Lemma activity_score_50_not_65_3 :
  (forall fpow, pow_accurate fpow ->
     _tx_count_to_activity_score fpow 50 <> Ok (lit (653 # 10)))
  /\ pow_accurate pow_ref
  /\ _tx_count_to_activity_score pow_ref 50 = Ok (lit 66).
Proof.
  split; [| split; [exact pow_ref_accurate | vm_compute; reflexivity]].
  intros fpow A. rewrite (activity_score_exact fpow 50) by (try lia; apply A; lia).
  vm_compute. discriminate.
Qed.

(** C3 (amended): the activity-score mapping sends tx_count=0 to 0.0,
    tx_count=100 to 100.0, and tx_count=50 to 66.0 (100 * 0.5^0.6 is
    65.975...), for an accurate pow of the C library. *)
Theorem activity_score_boundaries (fpow : f64 -> f64 -> f64) :
  pow_accurate fpow ->
  _tx_count_to_activity_score fpow 0 = Ok (lit 0)
  /\ _tx_count_to_activity_score fpow 100 = Ok (lit 100)
  /\ _tx_count_to_activity_score fpow 50 = Ok (lit 66).
Proof.
  intros A. split; [reflexivity | split; [reflexivity |]].
  rewrite (activity_score_exact fpow 50) by (try lia; apply A; lia).
  vm_compute. reflexivity.
Qed.

Lemma activity_score_boundaries_witness :
  pow_accurate pow_ref
  /\ _tx_count_to_activity_score pow_ref 0 = Ok (lit 0)
  /\ _tx_count_to_activity_score pow_ref 100 = Ok (lit 100)
  /\ _tx_count_to_activity_score pow_ref 50 = Ok (lit 66).
Proof.
  split; [exact pow_ref_accurate |].
  exact (activity_score_boundaries pow_ref pow_ref_accurate).
Defined.

(** Fewer than five transactions give an activity score below 80. *)
Lemma low_count_low_activity fpow n a :
  pow_accurate fpow -> n < 5 ->
  _tx_count_to_activity_score fpow n = Ok a -> fge a (lit 80) = false.
Proof.
  intros A H. destruct (Z_le_gt_dec n 0) as [H0|H0].
  - rewrite activity_score_low by assumption. intros E.
    apply Ok_inj in E. subst a. vm_compute. reflexivity.
  - revert a. pattern n. apply (Zrange_forall _ 1 4); [| lia].
    cbv [List.map seq].
    repeat (constructor;
            [intros a; rewrite activity_score_exact by (try lia; apply A; lia);
             intros E; apply Ok_inj in E; rewrite <- E; vm_compute; reflexivity |]).
    constructor.
Qed.

End ActivityClaims.

Section AnalyzerClaims.
Import Curve.
Open Scope Z_scope.

(** C9: for every metrics the analyzer produces (the activity score derived
    from tx_count by the curve, with an accurate pow), tx_count < 5 forces
    activity_score < 80; 'low_activity' occurs neither with 'high_churn' nor
    with 'suspicious_patterns'; and suspicious_behavior_count is at most 3. *)
Theorem low_activity_exclusions
  (fpow : f64 -> f64 -> f64) (now : Z) (Pubkey : Type)
  (Pubkey_from_string : pystr -> option Pubkey)
  (get_signatures_for_address : Pubkey -> Z -> result (option (list RpcItem)))
  (wallet : pystr) (m : WalletMetrics) :
  pow_accurate fpow ->
  analyze_wallet fpow now Pubkey Pubkey_from_string
    get_signatures_for_address wallet = Ok m ->
  (tx_count m < 5 -> flt (activity_score m) (lit 80) = true)
  /\ (In RISK_LOW_ACTIVITY (risk_flags m) ->
      ~ In RISK_HIGH_CHURN (risk_flags m)
      /\ ~ In RISK_SUSPICIOUS_PATTERNS (risk_flags m))
  /\ suspicious_behavior_count m <= 3.
Proof.
  intros A H.
  destruct (analyze_wallet_inv _ _ _ _ _ _ _ H) as [txs [age [a [_ [_ [Ea ->]]]]]].
  cbn [tx_count activity_score risk_flags suspicious_behavior_count].
  set (tx := Z.of_nat (List.length txs)) in *.
  destruct (risk_flags_membership tx age a) as [_ [M2 [M3 M4]]].
  assert (L : tx < 5 -> fge a (lit 80) = false).
  { intros Htx. exact (low_count_low_activity fpow tx a A Htx Ea). }
  split; [| split].
  - intros Htx. specialize (L Htx).
    destruct (Z_le_gt_dec tx 0) as [H0|H0].
    + rewrite activity_score_low in Ea by assumption.
      apply Ok_inj in Ea. subst a. vm_compute. reflexivity.
    + revert Ea. clear L M2 M3 M4. generalize a. pattern tx.
      apply (Zrange_forall _ 1 4); [| lia].
      cbv [List.map seq].
      repeat (constructor;
              [intros b; rewrite activity_score_exact by (try lia; apply A; lia);
               intros E; apply Ok_inj in E; rewrite <- E; vm_compute; reflexivity |]).
      constructor.
  - intros Hl. apply M2 in Hl. specialize (L Hl). split.
    + intros Hc. apply M3 in Hc. destruct Hc as [Hc _]. congruence.
    + intros Hs. apply M4 in Hs. destruct Hs as [Hs1 [Hs2 _]].
      assert (tx = 17 * (tx / 17)) by (pose proof (Z.div_mod tx 17); lia). lia.
  - rewrite compute_risk_flags_eq.
    destruct (Z_lt_le_dec tx 5) as [Hl|Hl].
    + rewrite (L Hl). cbn [andb].
      replace ((tx >? 0) && (tx mod 17 =? 0))%bool with false.
      * cbn [andb]. destruct (age <? 3), (tx <? 5); cbn; lia.
      * symmetry. apply andb_false_iff.
        destruct (Z_le_gt_dec tx 0); [left; rewrite Z.gtb_ltb; apply Z.ltb_ge; lia |].
        right. apply Z.eqb_neq. intros Hs2.
        assert (tx = 17 * (tx / 17)) by (pose proof (Z.div_mod tx 17); lia). lia.
    + replace (tx <? 5) with false by (symmetry; apply Z.ltb_ge; assumption).
      destruct (age <? 3), (fge a (lit 80) && (age <? 6))%bool,
        ((tx >? 0) && (tx mod 17 =? 0) && (age <? 12))%bool; cbn; lia.
Qed.

Lemma low_activity_exclusions_witness :
  pow_accurate pow_ref
  /\ analyze_wallet pow_ref Demo.now pystr Demo.from_string Demo.history
       (str_of " 4Nd1m ") = Ok Demo.metrics
  /\ (tx_count Demo.metrics < 5
      -> flt (activity_score Demo.metrics) (lit 80) = true)
  /\ (In RISK_LOW_ACTIVITY (risk_flags Demo.metrics) ->
      ~ In RISK_HIGH_CHURN (risk_flags Demo.metrics)
      /\ ~ In RISK_SUSPICIOUS_PATTERNS (risk_flags Demo.metrics))
  /\ suspicious_behavior_count Demo.metrics <= 3.
Proof.
  split; [exact pow_ref_accurate |].
  split; [vm_compute; reflexivity |].
  apply (low_activity_exclusions pow_ref Demo.now pystr Demo.from_string
           Demo.history (str_of " 4Nd1m ") Demo.metrics pow_ref_accurate).
  vm_compute. reflexivity.
Defined.

Lemma analyze_wallet_flag_count_witness :
  analyze_wallet pow_ref Demo.now pystr Demo.from_string Demo.history
    (str_of " 4Nd1m ") = Ok Demo.metrics
  /\ suspicious_behavior_count Demo.metrics
     = Z.of_nat (List.length (risk_flags Demo.metrics))
  /\ NoDup (risk_flags Demo.metrics).
Proof.
  split; [vm_compute; reflexivity |].
  apply (analyze_wallet_flag_count pow_ref Demo.now pystr Demo.from_string
           Demo.history (str_of " 4Nd1m ") Demo.metrics).
  vm_compute. reflexivity.
Defined.

Lemma analyze_wallet_strip_witness :
  strip (str_of "  4Nd1m ") = strip (str_of "4Nd1m")
  /\ analyze_wallet pow_ref Demo.now pystr Demo.from_string Demo.history
       (str_of "  4Nd1m ")
     = analyze_wallet pow_ref Demo.now pystr Demo.from_string Demo.history
         (str_of "4Nd1m").
Proof.
  split; [vm_compute; reflexivity |].
  apply (analyze_wallet_strip pow_ref Demo.now pystr Demo.from_string
           Demo.history (str_of "  4Nd1m ") (str_of "4Nd1m")).
  vm_compute. reflexivity.
Defined.

Lemma mock_wallet_age_witness :
  get_recent_transactions pystr Demo.from_string Demo.no_timestamp
    (strip (str_of " abc ")) MAX_SIGNATURES_LIMIT
  = Ok [ {| signature := str_of "sig1"; block_time := None |} ]
  /\ encode_utf8 (strip (str_of " abc ")) = Ok [97; 98; 99]
  /\ exists v m,
       int16 (firstn 8 (SHA256.hexdigest [97; 98; 99])) = Ok v
       /\ analyze_wallet pow_ref Demo.now pystr Demo.from_string
            Demo.no_timestamp (str_of " abc ") = Ok m
       /\ wallet_age_months m = v mod 25
       /\ 0 <= wallet_age_months m <= 24.
Proof.
  split; [vm_compute; reflexivity |].
  split; [vm_compute; reflexivity |].
  apply (mock_wallet_age pow_ref Demo.now pystr Demo.from_string
           Demo.no_timestamp (str_of " abc ")
           [ {| signature := str_of "sig1"; block_time := None |} ]
           [97; 98; 99]).
  - vm_compute. reflexivity.
  - intros i [<-|[]]. reflexivity.
  - vm_compute. reflexivity.
Defined.

End AnalyzerClaims.

(* ================================================================== *)
(** * Numbers that binary64 holds exactly *)

Section Exactness.
Open Scope Q_scope.

Lemma ilog2_lt q b : 0 < q -> q < pow2 b -> (ilog2 q < b)%Z.
Proof.
  intros Hq H. destruct (ilog2_spec q Hq) as [L _].
  destruct (Z_lt_le_dec (ilog2 q) b) as [|C]; [assumption | exfalso].
  assert (pow2 b <= pow2 (ilog2 q)) by (apply pow2_le; assumption). lra.
Qed.

Lemma inject_Z_pos m : (0 < m)%Z -> 0 < inject_Z m.
Proof. intros H. change 0 with (inject_Z 0). rewrite <- Zlt_Qlt. assumption. Qed.

Lemma inject_Z_nonneg m : (0 <= m)%Z -> 0 <= inject_Z m.
Proof. intros H. change 0 with (inject_Z 0). rewrite <- Zle_Qle. assumption. Qed.

(** A positive integer below 2^53 times a power of two from 2^-1074 is a
    binary64 number: rounding leaves it unchanged. *)
Lemma rnd_exact_pos m e :
  (0 < m < 2 ^ 53)%Z -> (-1074 <= e)%Z ->
  rnd (inject_Z m * pow2 e) == inject_Z m * pow2 e.
Proof.
  intros [Hm0 Hm1] He. set (q := inject_Z m * pow2 e).
  pose proof (pow2_pos e) as Pe. pose proof (inject_Z_pos m Hm0) as Pm.
  assert (Hq : 0 < q) by (unfold q; apply Qmult_lt_0_compat; assumption).
  assert (NE : ~ q == 0) by (intro C; rewrite C in Hq; discriminate).
  rewrite (rnd_eq q NE). set (u := ulp_exp q).
  assert (Hu : (u <= e)%Z).
  { unfold u. rewrite ulp_exp_pos by assumption.
    assert (ilog2 q < 53 + e)%Z; [| lia].
    apply ilog2_lt; [assumption |]. unfold q. rewrite pow2_add.
    apply Qmult_lt_r; [assumption |].
    rewrite (pow2_Z 53) by lia. rewrite <- Zlt_Qlt. assumption. }
  assert (S : q * pow2 (- u) == inject_Z (m * 2 ^ (e - u))).
  { unfold q. rewrite inject_Z_mult, <- (pow2_Z (e - u)) by lia.
    rewrite <- Qmult_assoc, <- pow2_add. replace (e + - u)%Z with (e - u)%Z by lia.
    reflexivity. }
  rewrite (rhe_comp _ _ S), rhe_Z. unfold q.
  rewrite inject_Z_mult, <- (pow2_Z (e - u)) by lia.
  rewrite <- Qmult_assoc, <- pow2_add. replace (e - u + u)%Z with e by lia.
  reflexivity.
Qed.

(** Non-negative integers below 2^53 are binary64 numbers. *)
Lemma rnd_int m : (0 <= m < 2 ^ 53)%Z -> rnd (inject_Z m) == inject_Z m.
Proof.
  intros [H0 H1]. destruct (Z.eq_dec m 0) as [->|NZ]; [reflexivity |].
  assert (E : inject_Z m == inject_Z m * pow2 0) by (change (pow2 0) with 1; ring).
  rewrite (rnd_comp _ _ E) at 1. rewrite rnd_exact_pos by lia. symmetry. exact E.
Qed.

(** The rounded value is an integer of at most 53 bits times the unit in
    the last place. *)
Lemma rnd_mantissa q :
  0 < q ->
  exists M, (0 <= M <= 2 ^ 53)%Z /\ rnd q == inject_Z M * pow2 (ulp_exp q).
Proof.
  intros Hq. assert (NE : ~ q == 0) by (intro C; rewrite C in Hq; discriminate).
  exists (rhe (q * pow2 (- ulp_exp q))). split; [| apply rnd_eq; assumption].
  set (u := ulp_exp q). pose proof (pow2_pos (- u)) as Pu. split.
  - rewrite <- (rhe_Z 0). apply rhe_mono. change (inject_Z 0) with 0.
    apply Qmult_le_0_compat; lra.
  - rewrite <- (rhe_Z (2 ^ 53)). apply rhe_mono.
    rewrite <- (pow2_Z 53) by lia. apply scaled_le; [lra |].
    destruct (ilog2_spec q Hq) as [_ U].
    apply Qle_trans with (pow2 (ilog2 q + 1)); [lra |]. apply pow2_le.
    unfold u. rewrite ulp_exp_pos by assumption. lia.
Qed.

Lemma ulp_exp_min q : (-1074 <= ulp_exp q)%Z.
Proof. unfold ulp_exp. lia. Qed.

(** Rounding is idempotent. *)
Lemma rnd_idem q : rnd (rnd q) == rnd q.
Proof.
  assert (P : forall p, 0 < p -> rnd (rnd p) == rnd p).
  { intros p Hp. destruct (rnd_mantissa p Hp) as [M [[M0 M1] E]].
    pose proof (ulp_exp_min p) as Hu. set (u := ulp_exp p) in *.
    rewrite (rnd_comp _ _ E). rewrite E.
    destruct (Z.eq_dec M 0) as [->|NZ].
    - assert (Z0 : inject_Z 0 * pow2 u == 0) by (change (inject_Z 0) with 0; ring).
      rewrite (rnd_comp _ _ Z0). rewrite Z0. reflexivity.
    - destruct (Z.eq_dec M (2 ^ 53)) as [->|NM].
      + assert (T : inject_Z (2 ^ 53) * pow2 u == inject_Z (2 ^ 52) * pow2 (u + 1)).
        { rewrite (pow2_add u 1). change (pow2 1) with 2.
          change (inject_Z (2 ^ 53)) with (inject_Z (2 ^ 52) * 2). ring. }
        rewrite (rnd_comp _ _ T). rewrite T. apply rnd_exact_pos; lia.
      + apply rnd_exact_pos; lia. }
  destruct (Qlt_le_dec 0 q) as [Hq|Hq]; [apply P; assumption |].
  destruct (Qeq_dec q 0) as [Z0|NZ].
  - rewrite (rnd_comp _ _ Z0). reflexivity.
  - assert (Hn : 0 < - q).
    { destruct (Qle_lt_or_eq _ _ Hq) as [|E]; [lra | contradiction]. }
    pose proof (P (- q) Hn) as E. rewrite !rnd_opp in E.
    lra.
Qed.

(** Truncation of a non-negative rational between two consecutive
    integers. *)
Lemma trunc_between v k :
  inject_Z k <= v -> v < inject_Z (k + 1) -> (0 <= k)%Z ->
  Z.quot (Qnum v) (Zpos (Qden v)) = k.
Proof.
  intros H1 H2 Hk. assert (Hv : 0 <= v) by (pose proof (inject_Z_nonneg k Hk); lra).
  assert (Hn : (0 <= Qnum v)%Z).
  { unfold Qle in Hv. cbn in Hv. lia. }
  rewrite Z.quot_div_nonneg by (try assumption; reflexivity).
  replace (Qnum v / Zpos (Qden v))%Z with (Qfloor v) by (destruct v; reflexivity).
  apply Z.le_antisymm.
  - pose proof (Qfloor_le v). assert (inject_Z (Qfloor v) < inject_Z (k + 1)) by lra.
    rewrite <- Zlt_Qlt in H0. lia.
  - rewrite <- (Qfloor_Z k). apply Qfloor_resp_le. assumption.
Qed.

Lemma trunc_nonneg v : 0 <= v ->
  (0 <= Z.quot (Qnum v) (Zpos (Qden v)))%Z /\ inject_Z (Z.quot (Qnum v) (Zpos (Qden v))) <= v.
Proof.
  intros Hv. assert (Hn : (0 <= Qnum v)%Z).
  { unfold Qle in Hv. cbn in Hv. lia. }
  rewrite Z.quot_div_nonneg by (try assumption; reflexivity).
  replace (Qnum v / Zpos (Qden v))%Z with (Qfloor v) by (destruct v; reflexivity).
  split.
  - rewrite <- (Qfloor_Z 0). apply Qfloor_resp_le. assumption.
  - apply Qfloor_le.
Qed.

End Exactness.

(* ================================================================== *)
(** * analyzer.py: the oldest block time and the wallet age *)

Section WalletAge.
Open Scope Z_scope.

Lemma fold_min_spec (l : list Z) (a : Z) :
  (fold_left Z.min l a = a \/ In (fold_left Z.min l a) l)
  /\ fold_left Z.min l a <= a
  /\ forall x, In x l -> fold_left Z.min l a <= x.
Proof.
  revert a. induction l as [|y l IH]; intros a; cbn [fold_left In].
  - split; [left; reflexivity | split; [lia | intros x []]].
  - destruct (IH (Z.min a y)) as [H1 [H2 H3]]. repeat split.
    + destruct H1 as [H1|H1]; [| auto].
      rewrite H1. destruct (Z.min_spec a y) as [[_ ->]|[_ ->]]; auto.
    + lia.
    + intros x [<-|Hx]; [lia | apply H3; assumption].
Qed.

Lemma block_times_In (infos : list TxSignatureInfo) (u : Z) :
  In u (flat_map (fun i => match block_time i with
                           | Some t => [t]
                           | None => []
                           end) infos)
  <-> exists i, In i infos /\ block_time i = Some u.
Proof.
  rewrite in_flat_map. split; intros [i [Hi H]]; exists i; (split; [assumption |]).
  - destruct (block_time i) as [t|]; cbn [In] in H; [| contradiction].
    destruct H as [->|[]]. reflexivity.
  - rewrite H. left. reflexivity.
Qed.

(** X1: the oldest block time is absent exactly when no record carries one, and
    is otherwise the least block time of the records that carry one. *)
Theorem oldest_block_time_spec (infos : list TxSignatureInfo) :
  match _oldest_block_time infos with
  | None => forall i, In i infos -> block_time i = None
  | Some t =>
      (exists i, In i infos /\ block_time i = Some t)
      /\ (forall i u, In i infos -> block_time i = Some u -> t <= u)
  end.
Proof.
  unfold _oldest_block_time.
  pose proof (block_times_In infos) as B.
  destruct (flat_map _ infos) as [|t ts].
  - intros i Hi. destruct (block_time i) as [u|] eqn:E; [| reflexivity].
    exfalso. apply (proj2 (B u)). exists i. auto.
  - destruct (fold_min_spec ts t) as [H1 [H2 H3]]. split.
    + apply B. destruct H1 as [->|H1]; [left; reflexivity | right; assumption].
    + intros i u Hi E. assert (Hu : In u (t :: ts)) by (apply B; exists i; auto).
      destruct Hu as [<-|Hu]; [assumption | apply H3; assumption].
Qed.

Lemma pow2_31_le : (inject_Z (2 ^ 31) <= pow2 1023)%Q.
Proof. rewrite <- (pow2_Z 31) by lia. apply pow2_le. lia. Qed.

(** The float quotient of a time span below 2^52 seconds by the month has
    the integer quotient as its integer part. *)
Lemma months_quotient d :
  0 < d < 2 ^ 52 ->
  exists v, RN (inject_Z d / inject_Z 2592000) = Fin v
            /\ (inject_Z (d / 2592000) <= v)%Q
            /\ (v < inject_Z (d / 2592000 + 1))%Q.
Proof.
  intros [Hd0 Hd1]. set (k := d / 2592000).
  pose proof (Z.div_mod d 2592000 ltac:(lia)) as DM. fold k in DM.
  pose proof (Z.mod_pos_bound d 2592000 ltac:(lia)) as MB.
  set (r := d mod 2592000) in *.
  assert (Hk : 0 <= k < 2 ^ 31) by (split; [apply Z.div_pos; lia | lia]).
  set (q := (inject_Z d / inject_Z 2592000)%Q).
  assert (Eq : (q == inject_Z k + inject_Z r * (1 # 2592000))%Q).
  { unfold q. rewrite DM at 1. rewrite inject_Z_plus, inject_Z_mult.
    change (inject_Z 2592000) with (2592000 # 1). field. }
  assert (Hr : (0 <= inject_Z r <= 2591999)%Q).
  { change 0%Q with (inject_Z 0). change 2591999%Q with (inject_Z 2591999).
    rewrite <- !Zle_Qle. lia. }
  pose proof (inject_Z_nonneg k ltac:(lia)) as Hk0.
  assert (Hk1 : (inject_Z k + 1 <= inject_Z (2 ^ 31))%Q).
  { rewrite <- inject_Z_succ. rewrite <- Zle_Qle. lia. }
  pose proof pow2_31_le as P31.
  set (x := (inject_Z ((k + 1) * 2 ^ 22 - 1) * pow2 (-22))%Q).
  assert (Ex : (x == inject_Z k + 1 - (1 # 4194304))%Q).
  { unfold x. change (pow2 (-22)) with (1 # 4194304).
    unfold Z.sub. rewrite inject_Z_plus, inject_Z_mult, inject_Z_succ.
    change (inject_Z (2 ^ 22)) with (4194304 # 1).
    change (inject_Z (- (1))) with (- (1))%Q. field. }
  assert (Rx : (rnd x == x)%Q) by (apply rnd_exact_pos; lia).
  assert (Rk : (rnd (inject_Z k) == inject_Z k)%Q) by (apply rnd_int; lia).
  assert (Lq : (inject_Z k <= q)%Q) by (rewrite Eq; lra).
  assert (Uq : (q <= x)%Q) by (rewrite Eq, Ex; lra).
  exists (rnd q). split; [apply RN_Fin; lra |]. split.
  - rewrite <- Rk. apply rnd_mono. assumption.
  - apply Qle_lt_trans with x; [rewrite <- Rx; apply rnd_mono; assumption |].
    rewrite Ex, inject_Z_succ. lra.
Qed.

(** X2: for an oldest timestamp in the past and a time span below 2^52 seconds,
    the wallet age is the integer quotient of the span by the 30-day month:
    the float division and truncation of the code lose nothing. *)
Theorem wallet_age_months_floor (now oldest_ts : Z) :
  oldest_ts < now -> now - oldest_ts < 2 ^ 52 ->
  _wallet_age_months now (Some oldest_ts)
  = Ok ((now - oldest_ts) / SECONDS_PER_MONTH).
Proof.
  intros H1 H2. unfold _wallet_age_months.
  replace (now <=? oldest_ts) with false by (symmetry; apply Z.leb_gt; assumption).
  change SECONDS_PER_MONTH with 2592000. unfold Py.int_truediv. cbn [Z.eqb].
  destruct (months_quotient (now - oldest_ts) ltac:(lia)) as [v [E [L U]]].
  rewrite E. cbn [bind Py.int].
  assert (K : 0 <= (now - oldest_ts) / 2592000) by (apply Z.div_pos; lia).
  rewrite (trunc_between v _ L U K). f_equal. lia.
Qed.

Lemma wallet_age_months_floor_witness :
  1700000000 < 1762128000 /\ 1762128000 - 1700000000 < 2 ^ 52
  /\ _wallet_age_months 1762128000 (Some 1700000000) = Ok 23.
Proof.
  split; [lia | split; [lia |]].
  exact (wallet_age_months_floor 1762128000 1700000000 ltac:(lia) ltac:(lia)).
Defined.

End WalletAge.

(* ================================================================== *)
(** * analyzer.py: shape of the activity score *)

Section ActivityShape.
Import Curve.
Open Scope Z_scope.

Lemma pow5_nonpos x : x <= 0 -> x ^ 5 <= 0.
Proof.
  intros H. replace (x ^ 5) with (x * (x * x) * (x * x)) by ring.
  assert (0 <= x * x) by nia. nia.
Qed.

Lemma curve_tenths_range n : 1 <= n <= 99 -> 0 <= curve_tenths n < 1000.
Proof.
  intros H. destruct (curve_tenths_nearest n H) as [[_ C] U]. split; [| assumption].
  destruct (Z_le_gt_dec 0 (curve_tenths n)) as [|G]; [assumption | exfalso].
  pose proof (pow5_nonpos (2 * curve_tenths n + 1) ltac:(lia)).
  assert (0 < n ^ 3) by (apply Z.pow_pos_nonneg; lia). lia.
Qed.

Lemma activity_tenths_range n : 0 <= activity_tenths n <= 1000.
Proof.
  unfold activity_tenths, TX_COUNT_FOR_FULL_ACTIVITY.
  destruct (n <=? 0) eqn:E0; [lia |]. destruct (n >=? 100) eqn:E1; [lia |].
  apply Z.leb_gt in E0. rewrite Z.geb_leb in E1. apply Z.leb_gt in E1.
  pose proof (curve_tenths_range n ltac:(lia)). lia.
Qed.

(** The exact curve does not decrease. *)
Lemma curve_tenths_mono n1 n2 :
  1 <= n1 -> n1 <= n2 -> n2 <= 99 -> curve_tenths n1 <= curve_tenths n2.
Proof.
  intros H1 H12 H2.
  destruct (curve_tenths_nearest n1 ltac:(lia)) as [[L1 _] _].
  destruct (curve_tenths_nearest n2 ltac:(lia)) as [[_ U2] _].
  pose proof (curve_tenths_range n2 ltac:(lia)) as R2.
  destruct (Z_le_gt_dec (curve_tenths n1) (curve_tenths n2)) as [|G]; [assumption | exfalso].
  assert (P : (2 * curve_tenths n2 + 1) ^ 5 <= (2 * curve_tenths n1 - 1) ^ 5)
    by (apply Z.pow_le_mono_l; lia).
  assert (C : n1 ^ 3 <= n2 ^ 3) by (apply Z.pow_le_mono_l; lia).
  lia.
Qed.

Lemma activity_tenths_mono n1 n2 :
  n1 <= n2 -> activity_tenths n1 <= activity_tenths n2.
Proof.
  intros H. pose proof (activity_tenths_range n1). pose proof (activity_tenths_range n2).
  unfold activity_tenths, TX_COUNT_FOR_FULL_ACTIVITY in *.
  destruct (n1 <=? 0) eqn:A1; [lia |]. apply Z.leb_gt in A1.
  replace (n2 <=? 0) with false in * by (symmetry; apply Z.leb_gt; lia).
  destruct (n2 >=? 100) eqn:B2; [lia |].
  rewrite Z.geb_leb in B2. apply Z.leb_gt in B2.
  replace (n1 >=? 100) with false
    by (symmetry; rewrite Z.geb_leb; apply Z.leb_gt; lia).
  apply curve_tenths_mono; lia.
Qed.

(** With an accurate pow, the activity score of every count is the float of
    its tenths. *)
Lemma activity_score_tenths fpow n :
  pow_accurate fpow ->
  _tx_count_to_activity_score fpow n
  = Ok (lit (inject_Z (activity_tenths n) / 10)).
Proof.
  intros A. unfold activity_tenths, TX_COUNT_FOR_FULL_ACTIVITY.
  destruct (n <=? 0) eqn:E0.
  - apply Z.leb_le in E0. rewrite activity_score_low by assumption.
    apply (f_equal Ok). unfold lit. apply RN_comp. reflexivity.
  - apply Z.leb_gt in E0. destruct (n >=? 100) eqn:E1.
    + rewrite Z.geb_leb in E1. apply Z.leb_le in E1.
      rewrite activity_score_full by assumption.
      apply (f_equal Ok). unfold lit. apply RN_comp. reflexivity.
    + rewrite Z.geb_leb in E1. apply Z.leb_gt in E1.
      apply activity_score_exact; [lia | apply A; lia].
Qed.

(** The float of a number of tenths in [0, 1000], and its order. *)
Lemma lit_tenths t :
  0 <= t <= 1000 ->
  lit (inject_Z t / 10) = Fin (rnd (inject_Z t / 10))
  /\ (0 <= rnd (inject_Z t / 10) <= 100)%Q.
Proof.
  intros H. apply lit_component.
  assert (0 <= inject_Z t <= 1000)%Q.
  { change 0%Q with (inject_Z 0). change 1000%Q with (inject_Z 1000).
    rewrite <- !Zle_Qle. assumption. }
  assert (E : (inject_Z t / 10 == inject_Z t * (1 # 10))%Q) by field.
  rewrite E. lra.
Qed.

Lemma rnd_tenths_mono t1 t2 :
  t1 <= t2 -> (rnd (inject_Z t1 / 10) <= rnd (inject_Z t2 / 10))%Q.
Proof.
  intros H. apply rnd_mono.
  assert (inject_Z t1 <= inject_Z t2)%Q by (rewrite <- Zle_Qle; assumption).
  assert (E1 : (inject_Z t1 / 10 == inject_Z t1 * (1 # 10))%Q) by field.
  assert (E2 : (inject_Z t2 / 10 == inject_Z t2 * (1 # 10))%Q) by field.
  rewrite E1, E2. lra.
Qed.

(** X3: with an accurate pow, the activity score is a number of tenths between
    0.0 and 100.0 (one decimal place, never NaN or infinite). *)
Theorem activity_score_range (fpow : f64 -> f64 -> f64) (n : Z) (a : f64) :
  pow_accurate fpow ->
  _tx_count_to_activity_score fpow n = Ok a ->
  (exists t, 0 <= t <= 1000 /\ a = lit (inject_Z t / 10))
  /\ fle (lit 0) a = true /\ fle a (lit 100) = true.
Proof.
  intros A H. rewrite (activity_score_tenths fpow n A) in H.
  apply Ok_inj in H. subst a.
  pose proof (activity_tenths_range n) as R.
  split; [exists (activity_tenths n); auto |].
  destruct (lit_tenths _ R) as [-> [L U]]. rewrite lit_0, lit_100. cbn [fle].
  split; apply Qle_bool_iff; assumption.
Qed.

Lemma activity_score_range_witness :
  pow_accurate pow_ref
  /\ _tx_count_to_activity_score pow_ref 3 = Ok (lit (122 # 10))
  /\ (exists t, 0 <= t <= 1000 /\ lit (122 # 10) = lit (inject_Z t / 10))
  /\ fle (lit 0) (lit (122 # 10)) = true
  /\ fle (lit (122 # 10)) (lit 100) = true.
Proof.
  split; [exact pow_ref_accurate |]. split; [vm_compute; reflexivity |].
  apply (activity_score_range pow_ref 3 (lit (122 # 10)) pow_ref_accurate).
  vm_compute. reflexivity.
Defined.

(** X4: with an accurate pow, a higher transaction count never gives a lower
    activity score. *)
Theorem activity_score_monotone
  (fpow : f64 -> f64 -> f64) (n1 n2 : Z) (a1 a2 : f64) :
  pow_accurate fpow -> n1 <= n2 ->
  _tx_count_to_activity_score fpow n1 = Ok a1 ->
  _tx_count_to_activity_score fpow n2 = Ok a2 ->
  fle a1 a2 = true.
Proof.
  intros A H H1 H2.
  rewrite (activity_score_tenths fpow n1 A) in H1. apply Ok_inj in H1. subst a1.
  rewrite (activity_score_tenths fpow n2 A) in H2. apply Ok_inj in H2. subst a2.
  destruct (lit_tenths _ (activity_tenths_range n1)) as [-> _].
  destruct (lit_tenths _ (activity_tenths_range n2)) as [-> _].
  cbn [fle]. apply Qle_bool_iff. apply rnd_tenths_mono.
  apply activity_tenths_mono. assumption.
Qed.

Lemma activity_score_monotone_witness :
  pow_accurate pow_ref /\ 3 <= 50
  /\ _tx_count_to_activity_score pow_ref 3 = Ok (lit (122 # 10))
  /\ _tx_count_to_activity_score pow_ref 50 = Ok (lit 66)
  /\ fle (lit (122 # 10)) (lit 66) = true.
Proof.
  split; [exact pow_ref_accurate |]. split; [lia |].
  split; [vm_compute; reflexivity |]. split; [vm_compute; reflexivity |].
  apply (activity_score_monotone pow_ref 3 50 _ _ pow_ref_accurate);
    [lia | vm_compute; reflexivity | vm_compute; reflexivity].
Defined.

Lemma rnd_40 : rnd 40 = 40%Q.
Proof. vm_compute. reflexivity. Qed.
Lemma rnd_70 : rnd 70 = 70%Q.
Proof. vm_compute. reflexivity. Qed.
Lemma rnd_400 : rnd (inject_Z 400 / 10) = 40%Q.
Proof. vm_compute. reflexivity. Qed.
Lemma rnd_700 : rnd (inject_Z 700 / 10) = 70%Q.
Proof. vm_compute. reflexivity. Qed.
Lemma rnd_399 : (rnd (inject_Z 399 / 10) < 40)%Q.
Proof. vm_compute. reflexivity. Qed.
Lemma rnd_699 : (rnd (inject_Z 699 / 10) < 70)%Q.
Proof. vm_compute. reflexivity. Qed.

(** The level of a score of [t] tenths. *)
Lemma level_of_tenths t :
  0 <= t <= 1000 ->
  _activity_score_to_level (lit (inject_Z t / 10))
  = if t <? 400 then low else if t <? 700 then medium else high.
Proof.
  intros R. destruct (lit_tenths t R) as [-> _].
  unfold _activity_score_to_level, ACTIVITY_LEVEL_LOW_THRESHOLD,
    ACTIVITY_LEVEL_HIGH_THRESHOLD, fge.
  change (lit 40) with (RN 40). change (lit 70) with (RN 70).
  rewrite (RN_Fin 40), (RN_Fin 70) by (vm_compute; split; discriminate).
  rewrite rnd_40, rnd_70. cbn [flt fle].
  destruct (t <? 400) eqn:E4.
  - apply Z.ltb_lt in E4.
    replace (Qltb (rnd (inject_Z t / 10)) 40) with true; [reflexivity |].
    symmetry. apply Qltb_lt.
    apply Qle_lt_trans with (rnd (inject_Z 399 / 10)); [| exact rnd_399].
    apply rnd_tenths_mono. lia.
  - apply Z.ltb_ge in E4.
    replace (Qltb (rnd (inject_Z t / 10)) 40) with false.
    2:{ symmetry. apply Qltb_ge. rewrite <- rnd_400.
        apply rnd_tenths_mono. assumption. }
    destruct (t <? 700) eqn:E7.
    + apply Z.ltb_lt in E7.
      replace (Qle_bool 70 (rnd (inject_Z t / 10))) with false; [reflexivity |].
      symmetry. apply Qle_bool_false.
      apply Qle_lt_trans with (rnd (inject_Z 699 / 10)); [| exact rnd_699].
      apply rnd_tenths_mono. lia.
    + apply Z.ltb_ge in E7.
      replace (Qle_bool 70 (rnd (inject_Z t / 10))) with true; [reflexivity |].
      symmetry. apply Qle_bool_iff. rewrite <- rnd_700.
      apply rnd_tenths_mono. assumption.
Qed.

Lemma tenths_21 : activity_tenths 21 = 392.
Proof. vm_compute. reflexivity. Qed.
Lemma tenths_22 : activity_tenths 22 = 403.
Proof. vm_compute. reflexivity. Qed.
Lemma tenths_55 : activity_tenths 55 = 699.
Proof. vm_compute. reflexivity. Qed.
Lemma tenths_56 : activity_tenths 56 = 706.
Proof. vm_compute. reflexivity. Qed.

(** X5: with an accurate pow, the activity level of a wallet is decided by its
    transaction count: low up to 21 transactions, medium from 22 to 55,
    high from 56. *)
Theorem activity_level_by_count (fpow : f64 -> f64 -> f64) (n : Z) (a : f64) :
  pow_accurate fpow ->
  _tx_count_to_activity_score fpow n = Ok a ->
  _activity_score_to_level a
  = if n <? 22 then low else if n <? 56 then medium else high.
Proof.
  intros A H. rewrite (activity_score_tenths fpow n A) in H.
  apply Ok_inj in H. subst a.
  rewrite (level_of_tenths _ (activity_tenths_range n)).
  destruct (n <? 22) eqn:E1.
  - apply Z.ltb_lt in E1. pose proof (activity_tenths_mono n 21 ltac:(lia)) as M.
    rewrite tenths_21 in M.
    replace (activity_tenths n <? 400) with true by (symmetry; apply Z.ltb_lt; lia).
    reflexivity.
  - apply Z.ltb_ge in E1. pose proof (activity_tenths_mono 22 n ltac:(lia)) as M.
    rewrite tenths_22 in M.
    replace (activity_tenths n <? 400) with false by (symmetry; apply Z.ltb_ge; lia).
    destruct (n <? 56) eqn:E2.
    + apply Z.ltb_lt in E2. pose proof (activity_tenths_mono n 55 ltac:(lia)) as M'.
      rewrite tenths_55 in M'.
      replace (activity_tenths n <? 700) with true by (symmetry; apply Z.ltb_lt; lia).
      reflexivity.
    + apply Z.ltb_ge in E2. pose proof (activity_tenths_mono 56 n ltac:(lia)) as M'.
      rewrite tenths_56 in M'.
      replace (activity_tenths n <? 700) with false by (symmetry; apply Z.ltb_ge; lia).
      reflexivity.
Qed.

Lemma activity_level_by_count_witness :
  pow_accurate pow_ref
  /\ _tx_count_to_activity_score pow_ref 50 = Ok (lit 66)
  /\ _activity_score_to_level (lit 66)
     = if 50 <? 22 then low else if 50 <? 56 then medium else high.
Proof.
  split; [exact pow_ref_accurate |]. split; [vm_compute; reflexivity |].
  apply (activity_level_by_count pow_ref 50 (lit 66) pow_ref_accurate).
  vm_compute. reflexivity.
Defined.

End ActivityShape.

(* ================================================================== *)
(** * scoring.py: order and failure of the trust score *)

Section ScoreOrder.
Open Scope Q_scope.

Lemma fmul_Fin_inv w y h :
  fmul (Fin w) y = Fin h -> exists b, y = Fin b /\ h = rnd (w * b).
Proof.
  destruct y as [b|t|]; cbn [fmul]; try discriminate.
  - intros H. exists b. split; [reflexivity | apply RN_Fin_inv; assumption].
  - destruct (Qeq_bool w 0); discriminate.
Qed.

(** The risk component of a count, weighted. *)
Lemma risk_term count x :
  (0 <= count)%Z ->
  Py.int_mul_float count PENALTY_PER_FLAG = Ok x ->
  fmul WEIGHT_RISK (Py.max (lit 0) (fsub (lit 100) x))
  = Fin (rnd (rnd (20 # 100) * rnd (Qmax 0 (100 - inject_Z count * 25)))).
Proof.
  intros H E. rewrite (risk_component_exact count x H E).
  destruct (risk_value_range count) as [R|]; [| lia].
  destruct (lit_component _ R) as [-> B].
  unfold WEIGHT_RISK. rewrite weight_risk_val.
  destruct weight_risk_facts as [w0 [w1 _]].
  destruct (fmul_const_range _ _ 100 w0 w1 B) as [M _]; [apply Qle_refl |].
  exact M.
Qed.

Lemma risk_value_antitone c1 c2 :
  (c1 <= c2)%Z ->
  Qmax 0 (100 - inject_Z c2 * 25) <= Qmax 0 (100 - inject_Z c1 * 25).
Proof.
  intros H. apply Q.max_le_compat_l.
  assert (inject_Z c1 <= inject_Z c2) by (rewrite <- Zle_Qle; assumption). lra.
Qed.

End ScoreOrder.

Section ScoreOrderTheorems.
Open Scope Z_scope.

(** X6: with the age, the activity score and the other fields fixed, more risk
    flags (a larger suspicious_behavior_count) never give a higher trust
    score. *)
Theorem trust_score_antitone_in_flags
  (tx age : Z) (act : f64) (lvl : ActivityLevel) (flags1 flags2 : list pystr)
  (c1 c2 s1 s2 : Z) (l1 l2 : RiskLevel) :
  0 <= c1 <= c2 ->
  compute_trust_score
    {| tx_count := tx; wallet_age_months := age; activity_score := act;
       activity_level := lvl; suspicious_behavior_count := c1;
       risk_flags := flags1 |} = Ok (s1, l1) ->
  compute_trust_score
    {| tx_count := tx; wallet_age_months := age; activity_score := act;
       activity_level := lvl; suspicious_behavior_count := c2;
       risk_flags := flags2 |} = Ok (s2, l2) ->
  s2 <= s1.
Proof.
  intros Hc H1 H2.
  destruct (compute_trust_score_inv _ _ _ H1) as [v1 [E1 ->]].
  destruct (compute_trust_score_inv _ _ _ H2) as [v2 [E2 ->]].
  destruct (score_float_shape _ _ E1) as [x1 [p1 [X1 [P1 S1]]]].
  destruct (score_float_shape _ _ E2) as [x2 [p2 [X2 [P2 S2]]]].
  cbn [wallet_age_months suspicious_behavior_count activity_score] in *.
  rewrite X1 in X2. apply Ok_inj in X2. subst x2.
  rewrite (risk_term c1 p1) in S1 by (lia || assumption).
  rewrite (risk_term c2 p2) in S2 by (lia || assumption).
  symmetry in S1, S2.
  destruct (fadd_Fin_inv _ _ _ S1) as [u1 [r1 [U1 [R1 V1]]]].
  destruct (fadd_Fin_inv _ _ _ S2) as [u2 [r2 [U2 [R2 V2]]]].
  rewrite U1 in U2. injection U2 as <-.
  injection R1 as <-. injection R2 as <-.
  assert (Q : (v2 <= v1)%Q).
  { subst v1 v2. apply rnd_mono. apply Qplus_le_r. apply rnd_mono.
    apply Qmult_le_l; [apply weight_risk_facts |].
    apply rnd_mono. apply risk_value_antitone. lia. }
  pose proof (rhe_mono _ _ Q). lia.
Qed.

Lemma trust_score_antitone_in_flags_witness : 45 <= 50.
Proof.
  apply (trust_score_antitone_in_flags 0 30 (lit 0) low [] [] 0 1 50 45
           Medium Medium);
    [lia | vm_compute; reflexivity | vm_compute; reflexivity].
Defined.

(** X7: with the age, the flag count and the other fields fixed, a higher
    activity score never gives a lower trust score. *)
Theorem trust_score_monotone_in_activity
  (tx age count : Z) (lvl1 lvl2 : ActivityLevel) (flags : list pystr)
  (act1 act2 : f64) (s1 s2 : Z) (l1 l2 : RiskLevel) :
  fle act1 act2 = true ->
  compute_trust_score
    {| tx_count := tx; wallet_age_months := age; activity_score := act1;
       activity_level := lvl1; suspicious_behavior_count := count;
       risk_flags := flags |} = Ok (s1, l1) ->
  compute_trust_score
    {| tx_count := tx; wallet_age_months := age; activity_score := act2;
       activity_level := lvl2; suspicious_behavior_count := count;
       risk_flags := flags |} = Ok (s2, l2) ->
  s1 <= s2.
Proof.
  intros Ha H1 H2.
  destruct (compute_trust_score_inv _ _ _ H1) as [v1 [E1 ->]].
  destruct (compute_trust_score_inv _ _ _ H2) as [v2 [E2 ->]].
  destruct (score_float_shape _ _ E1) as [x1 [p1 [X1 [P1 S1]]]].
  destruct (score_float_shape _ _ E2) as [x2 [p2 [X2 [P2 S2]]]].
  cbn [wallet_age_months suspicious_behavior_count activity_score] in *.
  rewrite X1 in X2. apply Ok_inj in X2. subst x2.
  rewrite P1 in P2. apply Ok_inj in P2. subst p2.
  symmetry in S1, S2.
  destruct (fadd_Fin_inv _ _ _ S1) as [u1 [r1 [U1 [R1 V1]]]].
  destruct (fadd_Fin_inv _ _ _ S2) as [u2 [r2 [U2 [R2 V2]]]].
  rewrite R1 in R2. injection R2 as <-.
  destruct (fadd_Fin_inv _ _ _ U1) as [w1 [h1 [W1 [A1 Y1]]]].
  destruct (fadd_Fin_inv _ _ _ U2) as [w2 [h2 [W2 [A2 Y2]]]].
  rewrite W1 in W2. injection W2 as <-.
  unfold WEIGHT_ACTIVITY in A1, A2. rewrite weight_activity_val in A1, A2.
  destruct (fmul_Fin_inv _ _ _ A1) as [b1 [-> B1]].
  destruct (fmul_Fin_inv _ _ _ A2) as [b2 [-> B2]].
  cbn [fle] in Ha. apply Qle_bool_iff in Ha.
  assert (Q : (v1 <= v2)%Q).
  { subst v1 v2 u1 u2 h1 h2. apply rnd_mono. apply Qplus_le_l. apply rnd_mono.
    apply Qplus_le_r. apply rnd_mono. apply Qmult_le_l; [reflexivity | assumption]. }
  pose proof (rhe_mono _ _ Q). lia.
Qed.

Lemma trust_score_monotone_in_activity_witness : 22 <= 28.
Proof.
  apply (trust_score_monotone_in_activity 0 2 0 low low [] (lit 0)
           (lit (122 # 10)) 22 28 High High);
    [vm_compute; reflexivity | vm_compute; reflexivity | vm_compute; reflexivity].
Defined.

End ScoreOrderTheorems.

Section ScoreFailure.
Open Scope Q_scope.

Lemma rnd_bound : rnd (inject_Z INT_FLOAT_BOUND) = pow2 1024.
Proof. vm_compute. reflexivity. Qed.

(** Integers of magnitude [INT_FLOAT_BOUND] or more do not convert. *)
Lemma float_of_int_overflow n :
  (INT_FLOAT_BOUND <= Z.abs n)%Z -> Py.float_of_int n = Raise OverflowError.
Proof.
  intros H. unfold Py.float_of_int, RN.
  replace (overflows (rnd (inject_Z n))) with true; [reflexivity |].
  symmetry. apply overflows_spec. rewrite <- rnd_bound.
  destruct (Z_le_gt_dec 0 n) as [P|N].
  - rewrite Z.abs_eq in H by assumption.
    apply Qle_trans with (rnd (inject_Z n)); [| apply Qle_Qabs].
    apply rnd_mono. rewrite <- Zle_Qle. assumption.
  - rewrite Z.abs_neq in H by lia.
    apply Qle_trans with (- rnd (inject_Z n)).
    + rewrite <- rnd_opp. apply rnd_mono. rewrite <- inject_Z_opp, <- Zle_Qle. assumption.
    + rewrite <- Qabs_opp. apply Qle_Qabs.
Qed.

(** The conversion fails with [OverflowError] only. *)
Lemma float_of_int_cases n :
  (exists x, Py.float_of_int n = Ok x) \/ Py.float_of_int n = Raise OverflowError.
Proof.
  unfold Py.float_of_int. destruct (RN (inject_Z n)); eauto.
Qed.

Lemma rnd_slack_hi : rnd (pow2 1023 + 50) = pow2 1023.
Proof. vm_compute. reflexivity. Qed.

(** Adding at most 50 to a float keeps it a float. *)
Lemma RN_slack q :
  - pow2 1023 <= q <= pow2 1023 + 50 ->
  RN q = Fin (rnd q) /\ - pow2 1023 <= rnd q <= pow2 1023.
Proof.
  intros [Hl Hu].
  assert (U : rnd q <= pow2 1023) by (rewrite <- rnd_slack_hi; apply rnd_mono; assumption).
  assert (L : - pow2 1023 <= rnd q).
  { rewrite <- rnd_pow2_1023, <- rnd_opp. apply rnd_mono; assumption. }
  split; [| split; assumption].
  unfold RN. replace (overflows (rnd q)) with false; [reflexivity |].
  symmetry. apply overflows_false. pose proof pow2_1023_lt.
  apply Qle_lt_trans with (pow2 1023); [| assumption].
  apply Qabs_Qle_condition. split; assumption.
Qed.

Lemma pow2_1024_double : pow2 1024 == 2 * pow2 1023.
Proof. vm_compute. reflexivity. Qed.

(** The weighted sum with a finite activity score is finite. *)
Lemma weighted_sum_finite age a count :
  (0 <= age)%Z -> (0 <= count)%Z -> Qabs a < pow2 1024 ->
  exists s, weighted_sum age (Fin a) count = Fin s.
Proof.
  intros Hage Hcount Ha. unfold weighted_sum.
  destruct (lit_component _ (age_value_range age Hage)) as [-> HA].
  destruct (risk_value_range count) as [HR|]; [| lia].
  destruct (lit_component _ HR) as [-> HR'].
  rewrite weight_age_val, weight_activity_val, weight_risk_val.
  destruct weight_age_facts as [wa0 [wa1 wa100]].
  destruct weight_risk_facts as [wr0 [wr1 wr100]].
  destruct (fmul_const_range _ _ 100 wa0 wa1 HA) as [-> B1]; [lra |].
  destruct (fmul_const_range _ _ 100 wr0 wr1 HR') as [-> B3]; [lra |].
  rewrite wa100 in B1. rewrite wr100 in B3.
  pose proof pow2_1024_double as D.
  assert (Hb : - pow2 1023 <= (1 # 2) * a <= pow2 1023).
  { revert Ha. apply Qabs_case; intros; split; lra. }
  cbn [fmul]. rewrite (RN_Fin _ Hb).
  assert (Hh : - pow2 1023 <= rnd ((1 # 2) * a) <= pow2 1023).
  { split.
    - rewrite <- rnd_pow2_1023, <- rnd_opp. apply rnd_mono. apply Hb.
    - rewrite <- rnd_pow2_1023. apply rnd_mono. apply Hb. }
  cbn [fadd].
  destruct (RN_slack (rnd (rnd (30 # 100) * rnd (Qmin 100 (inject_Z age * 4)))
                      + rnd ((1 # 2) * a))) as [-> Hu]; [split; lra |].
  cbn [fadd].
  destruct (RN_slack (rnd (rnd (rnd (30 # 100) * rnd (Qmin 100 (inject_Z age * 4)))
                           + rnd ((1 # 2) * a))
                      + rnd (rnd (20 # 100)
                             * rnd (Qmax 0 (100 - inject_Z count * 25)))))
    as [-> _]; [split; lra |].
  eexists. reflexivity.
Qed.

End ScoreFailure.

Section ScoreFailureTheorems.
Open Scope Z_scope.

(** X8: [compute_trust_score] raises OverflowError whenever wallet_age_months or
    suspicious_behavior_count has magnitude 2^1024 - 2^970 or more: the
    integer does not convert to a float. *)
Theorem compute_trust_score_overflow (m : WalletMetrics) :
  INT_FLOAT_BOUND <= Z.abs (wallet_age_months m)
  \/ INT_FLOAT_BOUND <= Z.abs (suspicious_behavior_count m) ->
  compute_trust_score m = Raise OverflowError.
Proof.
  intros H. unfold compute_trust_score, score_float, Py.int_mul_float.
  destruct (float_of_int_cases (wallet_age_months m)) as [[x E]|E].
  - destruct H as [H|H].
    + rewrite (float_of_int_overflow _ H) in E. discriminate.
    + rewrite E, (float_of_int_overflow _ H). reflexivity.
  - rewrite E. reflexivity.
Qed.

Lemma compute_trust_score_overflow_witness :
  compute_trust_score
    {| tx_count := 1; wallet_age_months := 1;
       activity_score := lit (63 # 10); activity_level := low;
       suspicious_behavior_count := - 2 ^ 1024; risk_flags := [] |}
  = Raise OverflowError.
Proof.
  apply (compute_trust_score_overflow
           {| tx_count := 1; wallet_age_months := 1;
              activity_score := lit (63 # 10); activity_level := low;
              suspicious_behavior_count := - 2 ^ 1024; risk_flags := [] |}).
  right. vm_compute. discriminate.
Defined.

(** X9: with wallet_age_months and suspicious_behavior_count non-negative and
    convertible, the outcome of [compute_trust_score] is decided by the
    activity score alone: a finite one, even outside [0, 100], gives a score
    clamped into [0, 100]; an infinite one raises OverflowError and NaN
    raises ValueError (both from [round]). *)
Theorem compute_trust_score_outcomes (m : WalletMetrics) :
  0 <= wallet_age_months m < INT_FLOAT_BOUND ->
  0 <= suspicious_behavior_count m < INT_FLOAT_BOUND ->
  match activity_score m with
  | Fin a =>
      (Qabs a < pow2 1024)%Q ->
      exists score level,
        compute_trust_score m = Ok (score, level) /\ 0 <= score <= 100
  | Inf _ => compute_trust_score m = Raise OverflowError
  | NaN => compute_trust_score m = Raise ValueError
  end.
Proof.
  intros Hage Hcount. unfold compute_trust_score.
  rewrite (score_float_Ok m Hage Hcount). cbn [bind].
  destruct (activity_score m) as [a|s|].
  - intros Ha.
    destruct (weighted_sum_finite (wallet_age_months m) a
                (suspicious_behavior_count m)) as [v ->]; [lia | lia | assumption |].
    cbn [Py.round bind]. eexists. eexists. split; [reflexivity | lia].
  - unfold weighted_sum.
    destruct (lit_component _ (age_value_range (wallet_age_months m) ltac:(lia)))
      as [-> HA].
    destruct (risk_value_range (suspicious_behavior_count m)) as [HR|]; [| lia].
    destruct (lit_component _ HR) as [-> HR'].
    rewrite weight_age_val, weight_activity_val, weight_risk_val.
    destruct weight_age_facts as [wa0 [wa1 _]].
    destruct weight_risk_facts as [wr0 [wr1 _]].
    destruct (fmul_const_range _ _ 100 wa0 wa1 HA) as [-> _]; [apply Qle_refl |].
    destruct (fmul_const_range _ _ 100 wr0 wr1 HR') as [-> _]; [apply Qle_refl |].
    reflexivity.
  - unfold weighted_sum.
    destruct (lit_component _ (age_value_range (wallet_age_months m) ltac:(lia)))
      as [-> HA].
    destruct (risk_value_range (suspicious_behavior_count m)) as [HR|]; [| lia].
    destruct (lit_component _ HR) as [-> HR'].
    rewrite weight_age_val, weight_activity_val, weight_risk_val.
    destruct weight_age_facts as [wa0 [wa1 _]].
    destruct weight_risk_facts as [wr0 [wr1 _]].
    destruct (fmul_const_range _ _ 100 wa0 wa1 HA) as [-> _]; [apply Qle_refl |].
    destruct (fmul_const_range _ _ 100 wr0 wr1 HR') as [-> _]; [apply Qle_refl |].
    reflexivity.
Qed.

Lemma compute_trust_score_outcomes_witness :
  exists score level,
    compute_trust_score
      {| tx_count := 7; wallet_age_months := 4;
         activity_score := Fin 250; activity_level := high;
         suspicious_behavior_count := 0; risk_flags := [] |}
    = Ok (score, level) /\ 0 <= score <= 100.
Proof.
  apply (compute_trust_score_outcomes
           {| tx_count := 7; wallet_age_months := 4;
              activity_score := Fin 250; activity_level := high;
              suspicious_behavior_count := 0; risk_flags := [] |});
    cbn [wallet_age_months suspicious_behavior_count];
    try (split; vm_compute; congruence); vm_compute; reflexivity.
Defined.

End ScoreFailureTheorems.

(* ================================================================== *)
(** * From the analysis to the score *)

Section AgeBounds.
Open Scope Z_scope.

Lemma bound_big : 100 < INT_FLOAT_BOUND.
Proof. vm_compute. reflexivity. Qed.

(** A finite float is below [INT_FLOAT_BOUND]. *)
Lemma float_below_bound q v :
  RN q = Fin v -> (v < inject_Z INT_FLOAT_BOUND)%Q.
Proof.
  intros H. pose proof (RN_Fin_inv _ _ H) as E.
  unfold RN in H. destruct (overflows (rnd q)) eqn:O; [discriminate |].
  apply overflows_false in O. rewrite <- E in O.
  apply Qnot_le_lt. intros C.
  pose proof (rnd_mono _ _ C) as M. rewrite rnd_bound in M.
  assert (I : (rnd v == v)%Q) by (rewrite E; apply rnd_idem).
  rewrite I in M. pose proof (Qle_Qabs v). lra.
Qed.

Lemma trunc_nonpos v :
  (v <= 0)%Q -> Z.quot (Qnum v) (Zpos (Qden v)) <= 0.
Proof.
  intros Hv. assert (Hn : Qnum v <= 0) by (unfold Qle in Hv; cbn in Hv; lia).
  replace (Qnum v) with (- - Qnum v) by lia.
  rewrite Z.quot_opp_l by discriminate.
  pose proof (Z.quot_pos (- Qnum v) (Zpos (Qden v)) ltac:(lia) ltac:(lia)). lia.
Qed.

(** The integer part of a finite float, clamped at 0, converts back. *)
Lemma int_float_bounds q v :
  RN q = Fin v ->
  0 <= Z.max 0 (Z.quot (Qnum v) (Zpos (Qden v))) < INT_FLOAT_BOUND.
Proof.
  intros H. pose proof bound_big as B. split; [lia |].
  destruct (Qlt_le_dec v 0) as [N|P].
  - pose proof (trunc_nonpos v ltac:(lra)). lia.
  - destruct (trunc_nonneg v P) as [T0 T1].
    pose proof (float_below_bound q v H) as F.
    assert (L : (inject_Z (Z.quot (Qnum v) (Zpos (Qden v)))
                 < inject_Z INT_FLOAT_BOUND)%Q) by lra.
    rewrite <- Zlt_Qlt in L. lia.
Qed.

(** Every age [_wallet_age_months] returns is non-negative and converts to
    a float. *)
Lemma wallet_age_bounds now oldest_ts age :
  _wallet_age_months now oldest_ts = Ok age -> 0 <= age < INT_FLOAT_BOUND.
Proof.
  pose proof bound_big as B. unfold _wallet_age_months.
  destruct oldest_ts as [t|].
  - destruct (now <=? t).
    + intros H. apply Ok_inj in H. subst age. lia.
    + unfold Py.int_truediv. change (SECONDS_PER_MONTH =? 0) with false. cbv iota.
      destruct (RN _) as [v|s|] eqn:R; cbn [bind Py.int]; try discriminate.
      intros H. apply Ok_inj in H. subst age.
      exact (int_float_bounds _ v R).
  - intros H. apply Ok_inj in H. subst age. lia.
Qed.

(** The mock age is at most 24 months. *)
Lemma mock_age_bounds wallet age :
  _mock_wallet_age_months wallet = Ok age -> 0 <= age <= 24.
Proof.
  unfold _mock_wallet_age_months.
  destruct (encode_utf8 _) as [b|]; [| discriminate]. cbn [bind].
  destruct (int16 _) as [v|]; [| discriminate]. cbn [bind].
  intros H. apply Ok_inj in H. subst age. unfold MOCK_AGE_CAP_MONTHS.
  pose proof (Z.mod_pos_bound v 25 ltac:(lia)). change (24 + 1) with 25. lia.
Qed.

(** The score of metrics whose fields are in range is the rounded weighted
    sum itself. *)
Lemma compute_trust_score_rounds m :
  0 <= wallet_age_months m < INT_FLOAT_BOUND ->
  0 <= suspicious_behavior_count m < INT_FLOAT_BOUND ->
  fle (lit 0) (activity_score m) = true ->
  fle (activity_score m) (lit 100) = true ->
  exists score level,
    compute_trust_score m = Ok (score, level)
    /\ Py.round (weighted_sum (wallet_age_months m) (activity_score m)
                   (suspicious_behavior_count m)) = Ok score
    /\ 0 <= score <= 100.
Proof.
  intros Hage Hcount Ha0 Ha1.
  destruct (weighted_sum_range (wallet_age_months m) (activity_score m)
              (suspicious_behavior_count m)) as [s [Es Hs]]; try lia; try assumption.
  pose proof (round_range s Hs) as R.
  unfold compute_trust_score. rewrite (score_float_Ok m Hage Hcount), Es.
  cbn [bind Py.round].
  replace (Z.max 0 (Z.min 100 (rhe s))) with (rhe s) by lia.
  eexists. eexists. split; [reflexivity | split; [reflexivity | assumption]].
Qed.

End AgeBounds.

Section Pipeline.
Open Scope Z_scope.

Variable fpow : f64 -> f64 -> f64.
Variable now : Z.
Variable Pubkey : Type.
Variable Pubkey_from_string : pystr -> option Pubkey.
Variable get_signatures_for_address :
  Pubkey -> Z -> result (option (list RpcItem)).

Let fetch (wallet : pystr) : result (list TxSignatureInfo) :=
  get_recent_transactions Pubkey Pubkey_from_string
    get_signatures_for_address wallet MAX_SIGNATURES_LIMIT.
Let analyze : pystr -> result WalletMetrics :=
  analyze_wallet fpow now Pubkey Pubkey_from_string get_signatures_for_address.

(** The ranges of the fields of every metrics the analysis returns. *)
Lemma analyze_wallet_ranges wallet m :
  Curve.pow_accurate fpow -> analyze wallet = Ok m ->
  0 <= tx_count m
  /\ 0 <= wallet_age_months m < INT_FLOAT_BOUND
  /\ fle (lit 0) (activity_score m) = true
  /\ fle (activity_score m) (lit 100) = true
  /\ 0 <= suspicious_behavior_count m <= 4.
Proof.
  intros A H.
  destruct (analyze_wallet_inv fpow now Pubkey Pubkey_from_string
              get_signatures_for_address wallet m H)
    as [txs [age [a [_ [Hage [Ha ->]]]]]].
  cbn [tx_count wallet_age_months activity_score suspicious_behavior_count].
  rewrite (activity_score_tenths fpow _ A) in Ha. apply Ok_inj in Ha. subst a.
  destruct (lit_tenths _ (activity_tenths_range (Z.of_nat (List.length txs))))
    as [E [L U]].
  pose proof bound_big.
  split; [lia |]. split.
  - destruct (_oldest_block_time txs) as [t|].
    + exact (wallet_age_bounds _ _ _ Hage).
    + pose proof (mock_age_bounds _ _ Hage). lia.
  - split; [| split].
    + rewrite E, lit_0. cbn [fle]. apply Qle_bool_iff. assumption.
    + rewrite E, lit_100. cbn [fle]. apply Qle_bool_iff. assumption.
    + pose proof (compute_risk_flags_length (Z.of_nat (List.length txs)) age
                    (lit (inject_Z (activity_tenths (Z.of_nat (List.length txs))) / 10))).
      lia.
Qed.

(** X11: with an accurate pow, every WalletMetrics [analyze_wallet] returns
    meets the constraints of the API model TrustMetrics: tx_count >= 0,
    wallet_age_months >= 0, 0.0 <= activity_score <= 100.0,
    suspicious_behavior_count >= 0 (and at most 4); and activity_level is
    the band of activity_score. *)
Theorem analyze_wallet_metrics_valid (wallet : pystr) (m : WalletMetrics) :
  Curve.pow_accurate fpow ->
  analyze wallet = Ok m ->
  0 <= tx_count m
  /\ 0 <= wallet_age_months m
  /\ fge (activity_score m) (lit 0) = true
  /\ fle (activity_score m) (lit 100) = true
  /\ 0 <= suspicious_behavior_count m <= 4
  /\ activity_level m = _activity_score_to_level (activity_score m).
Proof.
  intros A H.
  destruct (analyze_wallet_ranges wallet m A H) as [R1 [R2 [R3 [R4 R5]]]].
  repeat split; try assumption; try lia.
  destruct (analyze_wallet_inv fpow now Pubkey Pubkey_from_string
              get_signatures_for_address wallet m H)
    as [txs [age [a [_ [_ [_ ->]]]]]].
  reflexivity.
Qed.

(** X12: with an accurate pow, [compute_trust_score] never fails on the metrics
    [analyze_wallet] returns, whatever the ledger and the clock: the score
    is the rounded weighted sum, in [0, 100] without the clamp. *)
Theorem score_after_analysis (wallet : pystr) (m : WalletMetrics) :
  Curve.pow_accurate fpow ->
  analyze wallet = Ok m ->
  exists score level,
    compute_trust_score m = Ok (score, level)
    /\ Py.round (weighted_sum (wallet_age_months m) (activity_score m)
                   (suspicious_behavior_count m)) = Ok score
    /\ 0 <= score <= 100.
Proof.
  intros A H.
  destruct (analyze_wallet_ranges wallet m A H) as [R1 [R2 [R3 [R4 R5]]]].
  pose proof bound_big.
  apply compute_trust_score_rounds; try assumption. lia.
Qed.

(** The block times of the fetched records. *)
Lemma oldest_in_records txs t :
  _oldest_block_time txs = Some t ->
  exists i, In i txs /\ block_time i = Some t.
Proof.
  unfold _oldest_block_time. pose proof (block_times_In txs) as B.
  destruct (flat_map _ txs) as [|u us]; [discriminate |].
  intros H. injection H as <-. apply B.
  destruct (fold_min_spec us u) as [[->|H1] _]; [left; reflexivity | right; assumption].
Qed.

Lemma pow2_1023_Z : (inject_Z (2 ^ 1023) == pow2 1023)%Q.
Proof. vm_compute. reflexivity. Qed.

(** The age of a time span below 2^1023 seconds is computed. *)
Lemma wallet_age_total t :
  now - t < 2 ^ 1023 -> exists age, _wallet_age_months now (Some t) = Ok age.
Proof.
  intros H. unfold _wallet_age_months.
  destruct (now <=? t) eqn:E; [eauto |]. apply Z.leb_gt in E.
  unfold Py.int_truediv. change (SECONDS_PER_MONTH =? 0) with false. cbv iota.
  rewrite RN_Fin; [cbn [bind Py.int]; eauto |].
  assert (D0 : (0 <= inject_Z (now - t))%Q) by (apply inject_Z_nonneg; lia).
  assert (D1 : (inject_Z (now - t) <= inject_Z (2 ^ 1023))%Q)
    by (rewrite <- Zle_Qle; lia).
  rewrite pow2_1023_Z in D1. pose proof (pow2_pos 1023).
  change (inject_Z SECONDS_PER_MONTH) with (2592000 # 1)%Q.
  assert (Eq : (inject_Z (now - t) / (2592000 # 1)
                == inject_Z (now - t) * (1 # 2592000))%Q) by field.
  rewrite Eq. split; lra.
Qed.

(** X13: [analyze_wallet] returns metrics whenever the fetch succeeds, every
    block time is less than 2^1023 seconds before the clock reading, and
    the trimmed address has a UTF-8 encoding; tx_count is the number of
    records fetched. *)
Theorem analyze_wallet_total
  (wallet : pystr) (txs : list TxSignatureInfo) (b : bytes) :
  fetch (strip wallet) = Ok txs ->
  (forall i t, In i txs -> block_time i = Some t -> now - t < 2 ^ 1023) ->
  encode_utf8 (strip wallet) = Ok b ->
  exists m, analyze wallet = Ok m
            /\ tx_count m = Z.of_nat (List.length txs).
Proof.
  intros F S E.
  destruct (activity_score_total fpow (Z.of_nat (List.length txs))) as [a Ha].
  unfold analyze, analyze_wallet. fold (fetch (strip wallet)). rewrite F. cbn [bind].
  destruct (_oldest_block_time txs) as [t|] eqn:O.
  - destruct (oldest_in_records txs t O) as [i [Hi Ht]].
    destruct (wallet_age_total t (S i t Hi Ht)) as [age ->]. cbn [bind].
    rewrite Ha. cbn [bind]. eexists. split; reflexivity.
  - destruct (hexdigest_prefix b) as [v [Hv _]].
    unfold _mock_wallet_age_months. rewrite strip_idem, E. cbn [bind].
    rewrite Hv. cbn [bind]. rewrite Ha. cbn [bind]. eexists. split; reflexivity.
Qed.

Lemma no_tx_scores :
  forallb (fun age => scored_not_low 10 44 (no_tx_metrics age))
    (List.map (fun i => 0 + Z.of_nat i) (seq 0 25)) = true.
Proof. vm_compute. reflexivity. Qed.

Lemma no_tx_score age :
  0 <= age <= 24 -> scored_not_low 10 44 (no_tx_metrics age) = true.
Proof.
  intros H.
  apply (Zrange_forall (fun k => scored_not_low 10 44 (no_tx_metrics k) = true) 0 25);
    [| lia].
  apply Forall_forall. exact (proj1 (forallb_forall _ _) no_tx_scores).
Qed.

(** X14: a wallet with no transaction on the ledger gets tx_count 0, the
    activity score 0.0 with level low and the low_activity flag, and a trust
    score between 10 and 44: its risk level is never Low. *)
Theorem no_transactions_never_low (wallet : pystr) (m : WalletMetrics) :
  fetch (strip wallet) = Ok [] ->
  analyze wallet = Ok m ->
  tx_count m = 0
  /\ activity_score m = lit 0
  /\ activity_level m = low
  /\ In RISK_LOW_ACTIVITY (risk_flags m)
  /\ exists score level,
       compute_trust_score m = Ok (score, level)
       /\ 10 <= score <= 44 /\ level <> Low.
Proof.
  intros F H.
  destruct (analyze_wallet_inv fpow now Pubkey Pubkey_from_string
              get_signatures_for_address wallet m H)
    as [txs [age [a [F' [Hage [Ha ->]]]]]].
  fold (fetch (strip wallet)) in F'. rewrite F in F'. apply Ok_inj in F'. subst txs.
  cbn [List.length Z.of_nat] in *.
  rewrite activity_score_low in Ha by lia. apply Ok_inj in Ha. subst a.
  cbn [_oldest_block_time flat_map] in Hage.
  pose proof (mock_age_bounds _ _ Hage) as B.
  cbn [tx_count activity_score activity_level risk_flags].
  split; [reflexivity |]. split; [reflexivity |].
  split; [vm_compute; reflexivity |]. split.
  - apply (proj1 (proj2 (risk_flags_membership 0 age (lit 0)))). lia.
  - pose proof (no_tx_score age B) as C. unfold scored_not_low in C.
    change (compute_trust_score
              {| tx_count := 0; wallet_age_months := age;
                 activity_score := lit 0;
                 activity_level := _activity_score_to_level (lit 0);
                 suspicious_behavior_count :=
                   Z.of_nat (List.length (_compute_risk_flags 0 age (lit 0)));
                 risk_flags := _compute_risk_flags 0 age (lit 0) |})
      with (compute_trust_score (no_tx_metrics age)).
    destruct (compute_trust_score (no_tx_metrics age)) as [[score level]|];
      [| discriminate].
    exists score, level. split; [reflexivity |].
    apply andb_prop in C. destruct C as [C C3].
    apply andb_prop in C. destruct C as [C1 C2].
    apply Z.leb_le in C1. apply Z.leb_le in C2.
    split; [lia |]. intros ->. discriminate.
Qed.

End Pipeline.

Section PipelineWitnesses.
Open Scope Z_scope.

Lemma analyze_wallet_metrics_valid_witness :
  0 <= tx_count Demo.metrics
  /\ 0 <= wallet_age_months Demo.metrics
  /\ fge (activity_score Demo.metrics) (lit 0) = true
  /\ fle (activity_score Demo.metrics) (lit 100) = true
  /\ 0 <= suspicious_behavior_count Demo.metrics <= 4
  /\ activity_level Demo.metrics
     = _activity_score_to_level (activity_score Demo.metrics).
Proof.
  apply (analyze_wallet_metrics_valid Curve.pow_ref Demo.now pystr
           Demo.from_string Demo.history (str_of " 4Nd1m ") Demo.metrics
           pow_ref_accurate).
  vm_compute. reflexivity.
Defined.

Lemma score_after_analysis_witness :
  exists score level,
    compute_trust_score Demo.metrics = Ok (score, level)
    /\ Py.round (weighted_sum (wallet_age_months Demo.metrics)
                   (activity_score Demo.metrics)
                   (suspicious_behavior_count Demo.metrics)) = Ok score
    /\ 0 <= score <= 100.
Proof.
  apply (score_after_analysis Curve.pow_ref Demo.now pystr
           Demo.from_string Demo.history (str_of " 4Nd1m ") Demo.metrics
           pow_ref_accurate).
  vm_compute. reflexivity.
Defined.

Lemma analyze_wallet_total_witness :
  exists m,
    analyze_wallet Curve.pow_ref Demo.now pystr Demo.from_string Demo.history
      (str_of " 4Nd1m ") = Ok m
    /\ tx_count m = 3.
Proof.
  apply (analyze_wallet_total Curve.pow_ref Demo.now pystr Demo.from_string
           Demo.history (str_of " 4Nd1m ")
           [ {| signature := str_of "sig3"; block_time := Some 1750000000 |};
             {| signature := str_of "sig2"; block_time := None |};
             {| signature := str_of "sig1"; block_time := Some 1700000000 |} ]
           [52; 78; 100; 49; 109]).
  - vm_compute. reflexivity.
  - intros i t [<-|[<-|[<-|[]]]] E; cbn in E; try discriminate;
      injection E as <-; vm_compute; reflexivity.
  - vm_compute. reflexivity.
Defined.

End PipelineWitnesses.

Section NoTransactionsWitness.
Open Scope Z_scope.

Lemma no_transactions_never_low_witness :
  tx_count (no_tx_metrics 19) = 0
  /\ activity_score (no_tx_metrics 19) = lit 0
  /\ activity_level (no_tx_metrics 19) = low
  /\ In RISK_LOW_ACTIVITY (risk_flags (no_tx_metrics 19))
  /\ exists score level,
       compute_trust_score (no_tx_metrics 19) = Ok (score, level)
       /\ 10 <= score <= 44 /\ level <> Low.
Proof.
  apply (no_transactions_never_low Curve.pow_ref Demo.now pystr
           Demo.from_string unknown_ledger (str_of " abc ") (no_tx_metrics 19)).
  - vm_compute. reflexivity.
  - vm_compute. reflexivity.
Defined.

End NoTransactionsWitness.

(* ================================================================== *)
(** * main.py: the outcomes of the handler *)

Section Handler.
Open Scope Z_scope.

Variable fpow : f64 -> f64 -> f64.
Variable now : Z.
Variable Pubkey : Type.
Variable Pubkey_from_string : pystr -> option Pubkey.
Variable get_signatures_for_address :
  Pubkey -> Z -> result (option (list RpcItem)).
Variable insert_trust_record :
  pystr -> Z -> RiskLevel -> Z -> Z -> f64 -> list pystr -> result unit.

Let analyze : pystr -> result WalletMetrics :=
  analyze_wallet fpow now Pubkey Pubkey_from_string get_signatures_for_address.
Let handler : pystr -> outcome :=
  trust_score fpow now Pubkey Pubkey_from_string get_signatures_for_address
    insert_trust_record.

(** Trimming twice is trimming once. *)
Lemma analyze_wallet_stripped wallet : analyze (strip wallet) = analyze wallet.
Proof. unfold analyze, analyze_wallet. rewrite strip_idem. reflexivity. Qed.

(** An address the parser rejects. *)
Lemma analyze_wallet_invalid wallet :
  Pubkey_from_string (strip wallet) = None -> analyze wallet = Raise ValueError.
Proof.
  intros H. unfold analyze, analyze_wallet, get_recent_transactions.
  rewrite strip_idem, H. reflexivity.
Qed.

(** A failure of the transport. *)
Lemma analyze_wallet_rpc_error wallet pubkey e :
  Pubkey_from_string (strip wallet) = Some pubkey ->
  get_signatures_for_address pubkey MAX_SIGNATURES_LIMIT = Raise e ->
  analyze wallet = Raise e.
Proof.
  intros H R. unfold analyze, analyze_wallet, get_recent_transactions.
  rewrite strip_idem, H, R. reflexivity.
Qed.

(** X16: a wallet that is blank once trimmed, or that the address parser
    rejects, is answered with status 400, whatever the ledger. *)
Theorem handler_bad_request (body_wallet : pystr) :
  strip body_wallet = [] \/ Pubkey_from_string (strip body_wallet) = None ->
  handler body_wallet = HTTPException 400.
Proof.
  intros H. unfold handler, trust_score.
  destruct (strip body_wallet) as [|c r] eqn:E; [reflexivity |].
  destruct H as [H|H]; [discriminate |]. rewrite <- E in H |- *.
  fold analyze. rewrite analyze_wallet_stripped, (analyze_wallet_invalid _ H).
  reflexivity.
Qed.

(** X17: when the address parses and the RPC call raises, the handler answers
    503, unless the exception is a ValueError: then it answers 400. *)
Theorem handler_rpc_failure
  (body_wallet : pystr) (pubkey : Pubkey) (e : exn) :
  strip body_wallet <> [] ->
  Pubkey_from_string (strip body_wallet) = Some pubkey ->
  get_signatures_for_address pubkey MAX_SIGNATURES_LIMIT = Raise e ->
  handler body_wallet
  = HTTPException (if is_ValueError e then 400 else 503).
Proof.
  intros N H R. unfold handler, trust_score.
  destruct (strip body_wallet) as [|c r] eqn:E; [contradiction |].
  rewrite <- E in H |- *.
  fold analyze. rewrite analyze_wallet_stripped, (analyze_wallet_rpc_error _ _ _ H R).
  destruct (is_ValueError e); reflexivity.
Qed.

(** X18: with an accurate pow, the handler ends in one of four ways only: status
    400, status 503, an exception of the database insert (after a
    successful analysis and scoring), or a response.  The response carries
    the trimmed wallet, the metrics of the analysis, the score and level
    [compute_trust_score] gives for them, with 0 <= trust_score <= 100, and
    the same values were handed to the database.  Scoring and the
    validation of the response models never fail. *)
Theorem handler_outcome (body_wallet : pystr) :
  Curve.pow_accurate fpow ->
  match handler body_wallet with
  | Returns r =>
      Models.wallet r = strip body_wallet
      /\ strip body_wallet <> []
      /\ 0 <= Models.trust_score r <= 100
      /\ exists m,
           analyze body_wallet = Ok m
           /\ compute_trust_score m
              = Ok (Models.trust_score r, Models.risk_level r)
           /\ insert_trust_record (strip body_wallet) (Models.trust_score r)
                (Models.risk_level r) (tx_count m) (wallet_age_months m)
                (activity_score m) (risk_flags m) = Ok tt
           /\ Models.metrics r
              = {| Models.tx_count := tx_count m;
                   Models.wallet_age_months := wallet_age_months m;
                   Models.activity_score := activity_score m;
                   Models.activity_level := activity_level m;
                   Models.suspicious_behavior_count :=
                     suspicious_behavior_count m;
                   Models.risk_flags := risk_flags m |}
  | HTTPException status_code => status_code = 400 \/ status_code = 503
  | ValidationError => False
  | Propagates e =>
      exists m score level,
        analyze body_wallet = Ok m
        /\ compute_trust_score m = Ok (score, level)
        /\ insert_trust_record (strip body_wallet) score level (tx_count m)
             (wallet_age_months m) (activity_score m) (risk_flags m)
           = Raise e
  end.
Proof.
  intros A. unfold handler, trust_score.
  destruct (strip body_wallet) as [|c r] eqn:E; [left; reflexivity |].
  rewrite <- E. fold analyze. rewrite analyze_wallet_stripped.
  destruct (analyze body_wallet) as [m|e] eqn:H.
  2:{ destruct (is_ValueError e); [left | right]; reflexivity. }
  destruct (analyze_wallet_ranges fpow now Pubkey Pubkey_from_string
              get_signatures_for_address body_wallet m A H)
    as [R1 [R2 [R3 [R4 R5]]]].
  pose proof bound_big as B.
  destruct (compute_trust_score_rounds m R2 ltac:(lia) R3 R4)
    as [score [level [C [_ S]]]].
  rewrite C.
  destruct (insert_trust_record _ _ _ _ _ _ _) as [[]|e] eqn:I.
  2:{ exists m, score, level. repeat split; assumption. }
  unfold Models.new_TrustMetrics.
  replace (tx_count m >=? 0) with true
    by (symmetry; rewrite Z.geb_leb; apply Z.leb_le; lia).
  replace (wallet_age_months m >=? 0) with true
    by (symmetry; rewrite Z.geb_leb; apply Z.leb_le; lia).
  replace (suspicious_behavior_count m >=? 0) with true
    by (symmetry; rewrite Z.geb_leb; apply Z.leb_le; lia).
  unfold fge. rewrite R3, R4. cbn [andb].
  unfold Models.new_TrustScoreResponse.
  replace (score >=? 0) with true
    by (symmetry; rewrite Z.geb_leb; apply Z.leb_le; lia).
  replace (score <=? 100) with true by (symmetry; apply Z.leb_le; lia).
  cbn [andb Models.wallet Models.trust_score Models.risk_level Models.metrics].
  split; [reflexivity |]. split; [rewrite E; discriminate |].
  split; [assumption |]. exists m. repeat split; assumption.
Qed.

End Handler.

Section HandlerWitnesses.
Open Scope Z_scope.

Lemma handler_bad_request_witness :
  trust_score Curve.pow_ref Demo.now pystr Demo.from_string Demo.history
    accept_row (str_of "   ") = HTTPException 400.
Proof.
  apply (handler_bad_request Curve.pow_ref Demo.now pystr
           Demo.from_string Demo.history accept_row (str_of "   ")).
  left. vm_compute. reflexivity.
Defined.

Lemma handler_rpc_failure_witness :
  trust_score Curve.pow_ref Demo.now pystr Demo.from_string
    unreachable_ledger accept_row (str_of "4Nd1m") = HTTPException 503.
Proof.
  apply (handler_rpc_failure Curve.pow_ref Demo.now pystr
           Demo.from_string unreachable_ledger accept_row (str_of "4Nd1m")
           (str_of "4Nd1m") RpcError).
  - vm_compute. discriminate.
  - vm_compute. reflexivity.
  - reflexivity.
Defined.

Lemma handler_outcome_witness :
  exists r,
    trust_score Curve.pow_ref Demo.now pystr Demo.from_string Demo.history
      accept_row (str_of " 4Nd1m ") = Returns r
    /\ Models.wallet r = strip (str_of " 4Nd1m ")
    /\ 0 <= Models.trust_score r <= 100.
Proof.
  pose proof (handler_outcome Curve.pow_ref Demo.now pystr
                Demo.from_string Demo.history accept_row (str_of " 4Nd1m ")
                pow_ref_accurate) as H.
  destruct (trust_score Curve.pow_ref Demo.now pystr Demo.from_string
              Demo.history accept_row (str_of " 4Nd1m ")) as [r|c| |e] eqn:E;
    try (vm_compute in E; discriminate).
  exists r. destruct H as [H1 [_ [H2 _]]]. repeat split; assumption || apply H2.
Defined.

End HandlerWitnesses.

(* ================================================================== *)
(** * The high_churn flag and the saturation of the score *)

Section HighChurn.
Open Scope Z_scope.

Lemma rnd_800 : rnd (inject_Z 800 / 10) = 80%Q.
Proof. vm_compute. reflexivity. Qed.
Lemma rnd_799 : (rnd (inject_Z 799 / 10) < 80)%Q.
Proof. vm_compute. reflexivity. Qed.
Lemma lit_80 : lit 80 = Fin 80.
Proof. vm_compute. reflexivity. Qed.
Lemma tenths_68 : activity_tenths 68 = 793.
Proof. vm_compute. reflexivity. Qed.
Lemma tenths_69 : activity_tenths 69 = 800.
Proof. vm_compute. reflexivity. Qed.

(** A score of [t] tenths is at least 80.0 from 800 tenths on. *)
Lemma tenths_ge_80 t :
  0 <= t <= 1000 -> fge (lit (inject_Z t / 10)) (lit 80) = (800 <=? t).
Proof.
  intros R. destruct (lit_tenths t R) as [-> _]. rewrite lit_80.
  unfold fge. cbn [fle]. destruct (800 <=? t) eqn:E.
  - apply Z.leb_le in E. apply Qle_bool_iff. rewrite <- rnd_800.
    apply rnd_tenths_mono. assumption.
  - apply Z.leb_gt in E. apply Qle_bool_false.
    apply Qle_lt_trans with (rnd (inject_Z 799 / 10)); [| exact rnd_799].
    apply rnd_tenths_mono. lia.
Qed.

(** With an accurate pow, the activity score reaches 80.0 from 69
    transactions on. *)
Lemma activity_ge_80 fpow n a :
  Curve.pow_accurate fpow ->
  _tx_count_to_activity_score fpow n = Ok a ->
  fge a (lit 80) = (69 <=? n).
Proof.
  intros A H. rewrite (activity_score_tenths fpow n A) in H.
  apply Ok_inj in H. subst a.
  rewrite (tenths_ge_80 _ (activity_tenths_range n)).
  destruct (69 <=? n) eqn:E.
  - apply Z.leb_le in E. pose proof (activity_tenths_mono 69 n E) as M.
    rewrite tenths_69 in M. apply Z.leb_le. assumption.
  - apply Z.leb_gt in E. pose proof (activity_tenths_mono n 68 ltac:(lia)) as M.
    rewrite tenths_68 in M. apply Z.leb_gt. lia.
Qed.

Variable fpow : f64 -> f64 -> f64.
Variable now : Z.
Variable Pubkey : Type.
Variable Pubkey_from_string : pystr -> option Pubkey.
Variable get_signatures_for_address :
  Pubkey -> Z -> result (option (list RpcItem)).

(** X15: with an accurate pow, the metrics [analyze_wallet] returns carry the
    high_churn flag exactly when the wallet has 69 transactions or more and
    is younger than 6 months. *)
Theorem high_churn_by_count (wallet : pystr) (m : WalletMetrics) :
  Curve.pow_accurate fpow ->
  analyze_wallet fpow now Pubkey Pubkey_from_string
    get_signatures_for_address wallet = Ok m ->
  (In RISK_HIGH_CHURN (risk_flags m)
   <-> 69 <= tx_count m /\ wallet_age_months m < 6).
Proof.
  intros A H.
  destruct (analyze_wallet_inv fpow now Pubkey Pubkey_from_string
              get_signatures_for_address wallet m H)
    as [txs [age [a [_ [_ [Ha ->]]]]]].
  cbn [risk_flags tx_count wallet_age_months].
  destruct (risk_flags_membership (Z.of_nat (List.length txs)) age a)
    as [_ [_ [F _]]].
  rewrite F, (activity_ge_80 fpow _ a A Ha), Z.leb_le. reflexivity.
Qed.

End HighChurn.

Section Saturation.
Open Scope Z_scope.





End Saturation.

Section HighChurnWitness.
Open Scope Z_scope.

Lemma high_churn_by_count_witness :
  In RISK_HIGH_CHURN (risk_flags Demo.metrics)
  <-> 69 <= tx_count Demo.metrics /\ wallet_age_months Demo.metrics < 6.
Proof.
  apply (high_churn_by_count Curve.pow_ref Demo.now pystr Demo.from_string
           Demo.history (str_of " 4Nd1m ") Demo.metrics pow_ref_accurate).
  vm_compute. reflexivity.
Defined.

End HighChurnWitness.
